(** * OpenPixelControl stream codec: encoder (OpcClientStream) and
      incremental decoder (OpcParseStream)

    A shallow embedding of the two classes of the package and the
    properties of the wire protocol they implement:

      offset 0: channel (1 byte)      offset 2: length (2 bytes, big endian)
      offset 1: command (1 byte)      offset 4: payload (length bytes)

    Bytes are [Byte.byte]; JavaScript numbers that the code handles are
    integers and are modelled by [Z], with the 32-bit coercions of the
    bitwise operators written out.  A Node [Buffer] is a [list byte]; the
    code never writes to a buffer it has sliced, so views and copies
    coincide. *)

From Stdlib Require Import ZArith List Strings.Byte String Bool Lia.
From stdpp Require Import base list.
Import ListNotations.

Local Open Scope Z_scope.

(** ** JavaScript integer operators *)

Module JS.

(** ToInt32 and ToUint32 of an integer-valued number. *)
Definition toInt32 (x : Z) : Z := (x + 2 ^ 31) mod 2 ^ 32 - 2 ^ 31.
Definition toUint32 (x : Z) : Z := x mod 2 ^ 32.

(** [x >> n], [x >>> n], [x << n], [x & y], [x | y], [~~x]. *)
Definition shr (x n : Z) : Z := Z.shiftr (toInt32 x) (toUint32 n mod 32).
Definition ushr (x n : Z) : Z := Z.shiftr (toUint32 x) (toUint32 n mod 32).
Definition shl (x n : Z) : Z := toInt32 (Z.shiftl (toInt32 x) (toUint32 n mod 32)).
Definition and (x y : Z) : Z := toInt32 (Z.land (toInt32 x) (toInt32 y)).
Definition or (x y : Z) : Z := toInt32 (Z.lor (toInt32 x) (toInt32 y)).

(** The values an option field holds in this model: absent, or an
    integer-valued number. *)
Inductive value : Type :=
| Undefined
| Number (n : Z).

(** [~~v]: double bitwise negation, that is ToInt32 ([undefined] gives
    NaN, whose ToInt32 is 0). *)
Definition double_not (v : value) : Z :=
  match v with
  | Undefined => 0
  | Number n => toInt32 n
  end.

(** [a || b] on numbers: 0 is the falsy number. *)
Definition num_or (a b : Z) : Z := if a =? 0 then b else a.

(** [s || d] on an optional string: [undefined] and the empty string are
    falsy. *)
Definition str_or (s : option string) (d : string) : string :=
  match s with
  | Some EmptyString | None => d
  | Some s => s
  end.

End JS.

(** ** Node buffers *)

Definition Buffer : Type := list byte.

Module Buf.

Definition to_Z (b : byte) : Z := Z.of_N (Byte.to_N b).

(** What storing the number [v] into one element of a [Uint8Array]
    keeps: [v] modulo 256. *)
Definition of_Z (v : Z) : byte :=
  default x00 (Byte.of_N (Z.to_N (v mod 256))).

Definition len (b : Buffer) : Z := Z.of_nat (length b).

(** [Buffer.alloc(n)]: [n] zero bytes. *)
Definition alloc (n : Z) : Buffer := replicate (Z.to_nat n) x00.

(** [buf.readUInt8(offset)].  Every read of the code is below the
    buffer's length; past it this model reads 0. *)
Definition readUInt8 (buf : Buffer) (offset : Z) : Z :=
  default 0 (to_Z <$> buf !! Z.to_nat offset).

(** [buf.readUInt16BE(offset)]. *)
Definition readUInt16BE (buf : Buffer) (offset : Z) : Z :=
  readUInt8 buf offset * 256 + readUInt8 buf (offset + 1).

(** The store of [buf.writeUInt8(value, offset, noAssert)]: the element
    keeps the low 8 bits, and a store past the end does nothing.  For a
    value in 0..255 and an offset below the length this is what the call
    does on every runtime.  Outside that range it is what a runtime that
    honours [noAssert] does; one that ignores the flag throws instead
    (see [Checked.writeUInt8]).  The calls of [setPixelColors] pass no
    flag, with a value masked by [& 0xff] and an offset below the length,
    so that the check never fires there. *)
Definition writeUInt8 (buf : Buffer) (value offset : Z) : Buffer :=
  <[Z.to_nat offset := of_Z value]> buf.

(** The store of [buf.writeUInt16BE(value, offset, noAssert)]:
    [buf[offset] = value >>> 8; buf[offset + 1] = value].  As for
    [writeUInt8], this is the call itself for a value in 0..65535 and an
    offset that leaves room for two bytes; outside that range the outcome
    depends on the runtime (see [Checked.writeUInt16BE]). *)
Definition writeUInt16BE (buf : Buffer) (value offset : Z) : Buffer :=
  <[Z.to_nat (offset + 1) := of_Z value]>
    (<[Z.to_nat offset := of_Z (JS.ushr value 8)]> buf).

(** [src.copy(target, targetStart)]: the bytes of [src] overwrite
    [target] from [targetStart] on, as far as [target] reaches. *)
Definition copy (src target : Buffer) (targetStart : Z) : Buffer :=
  list_inserts (Z.to_nat targetStart) src target.

(** [buf.slice(start)] and [buf.slice(start, end)], for offsets that are
    not negative. *)
Definition slice_from (buf : Buffer) (start : Z) : Buffer :=
  drop (Z.to_nat start) buf.
Definition slice (buf : Buffer) (start stop : Z) : Buffer :=
  take (Z.to_nat stop - Z.to_nat start) (drop (Z.to_nat start) buf).

(** [Buffer.concat([a, b])]. *)
Definition concat (a b : Buffer) : Buffer := a ++ b.

End Buf.

(** Pixel data as the two classes exchange it: a packed buffer of 3 bytes
    per pixel, or a [Uint32Array] with one element per pixel. *)
Inductive PixelData : Type :=
| PxBuffer (data : Buffer)
| PxUint32Array (data : list Z).

(** A run of a counted loop [for (let i = 0; i < n; i++) body(i)] over a
    state [S]. *)
Definition for_loop {S : Type} (n : nat) (body : S -> nat -> S) (s : S) : S :=
  foldl body s (seq 0 n).

(** ** The encoder: class OpcClientStream *)

Module OpcClientStream.

Definition SETPIXELCOLORS : Z := 0x00.
Definition SYSEX : Z := 0xff.

(** [static createMessage(channel, command, data)]. *)
Definition createMessage (channel command : Z) (data : Buffer) : Buffer :=
  let msg := Buf.alloc (4 + Buf.len data) in
  let msg := Buf.writeUInt8 msg channel 0 in
  let msg := Buf.writeUInt8 msg command 1 in
  let msg := Buf.writeUInt16BE msg (Buf.len data) 2 in
  Buf.copy data msg 4.

(** The conversion inside [setPixelColors] for a [Uint32Array]:
    three bytes per element, bits 23-16, 15-8 and 7-0. *)
Definition pack_pixels (data : list Z) : Buffer :=
  let tmp := Buf.alloc (3 * Z.of_nat (length data)) in
  for_loop (length data)
    (fun tmp i =>
       let rgb := default 0 (data !! i) in
       let tmp := Buf.writeUInt8 tmp (JS.and (JS.shr rgb 16) 0xff) (3 * Z.of_nat i) in
       let tmp := Buf.writeUInt8 tmp (JS.and (JS.shr rgb 8) 0xff) (3 * Z.of_nat i + 1) in
       Buf.writeUInt8 tmp (JS.and rgb 0xff) (3 * Z.of_nat i + 2))
    tmp.

(** The three bytes one turn of that loop writes for the element
    [rgb]. *)
Definition pixel_bytes (rgb : Z) : Buffer :=
  [Buf.of_Z (JS.and (JS.shr rgb 16) 0xff);
   Buf.of_Z (JS.and (JS.shr rgb 8) 0xff);
   Buf.of_Z (JS.and rgb 0xff)].

(** The stream is the queue of the messages pushed so far. *)
Definition t : Type := list Buffer.

Definition push (this : t) (msg : Buffer) : t := this ++ [msg].

(** [setPixelColors(channel, data)]. *)
Definition setPixelColors (this : t) (channel : Z) (data : PixelData) : t :=
  let data :=
    match data with
    | PxUint32Array a => pack_pixels a
    | PxBuffer b => b
    end in
  push this (createMessage channel SETPIXELCOLORS data).

(** [sysex(channel, systemId, data)]. *)
Definition sysex (this : t) (channel systemId : Z) (data : Buffer) : t :=
  let buffer := Buf.alloc (2 + Buf.len data) in
  let buffer := Buf.writeUInt16BE buffer systemId 0 in
  let buffer := Buf.copy data buffer 2 in
  push this (createMessage channel SYSEX buffer).

End OpcClientStream.

(** ** The header writes on the two kinds of runtime *)

(** [createMessage] and [sysex] pass [noAssert = true] to the writes of
    the header.  A runtime that honours the flag (Node before 10) stores
    without a check; a runtime that ignores it (Node 10 and later) checks
    the value and the offset of every write and throws a RangeError when
    one is out of range. *)
Inductive Runtime : Type :=
| HonoursNoAssert
| IgnoresNoAssert.

Module Checked.

(** The check of a write of [size] bytes of a value up to [max]. *)
Definition in_range (buf : Buffer) (value max offset size : Z) : bool :=
  (0 <=? value) && (value <=? max) && (0 <=? offset) && (offset + size <=? Buf.len buf).

(** [buf.writeUInt8(value, offset, true)]; [None] is a thrown
    RangeError. *)
Definition writeUInt8 (rt : Runtime) (buf : Buffer) (value offset : Z)
  : option Buffer :=
  match rt with
  | HonoursNoAssert => Some (Buf.writeUInt8 buf value offset)
  | IgnoresNoAssert =>
      if in_range buf value 0xff offset 1
      then Some (Buf.writeUInt8 buf value offset)
      else None
  end.

(** [buf.writeUInt16BE(value, offset, true)]. *)
Definition writeUInt16BE (rt : Runtime) (buf : Buffer) (value offset : Z)
  : option Buffer :=
  match rt with
  | HonoursNoAssert => Some (Buf.writeUInt16BE buf value offset)
  | IgnoresNoAssert =>
      if in_range buf value 0xffff offset 2
      then Some (Buf.writeUInt16BE buf value offset)
      else None
  end.

(** [static createMessage(channel, command, data)], statement by
    statement; a write that throws ends the call. *)
Definition createMessage (rt : Runtime) (channel command : Z) (data : Buffer)
  : option Buffer :=
  let msg := Buf.alloc (4 + Buf.len data) in
  match writeUInt8 rt msg channel 0 with
  | None => None
  | Some msg =>
      match writeUInt8 rt msg command 1 with
      | None => None
      | Some msg =>
          match writeUInt16BE rt msg (Buf.len data) 2 with
          | None => None
          | Some msg => Some (Buf.copy data msg 4)
          end
      end
  end.

(** [sysex(channel, systemId, data)]: the queue after the call, when
    nothing throws. *)
Definition sysex (rt : Runtime) (this : OpcClientStream.t)
    (channel systemId : Z) (data : Buffer) : option OpcClientStream.t :=
  let buffer := Buf.alloc (2 + Buf.len data) in
  match writeUInt16BE rt buffer systemId 0 with
  | None => None
  | Some buffer =>
      let buffer := Buf.copy data buffer 2 in
      match createMessage rt channel OpcClientStream.SYSEX buffer with
      | None => None
      | Some msg => Some (OpcClientStream.push this msg)
      end
  end.

End Checked.

(** ** The decoder: class OpcParseStream *)

Module OpcParseStream.

(** [OpcParseStream.DataFormat] and [OpcParseStream.Commands]. *)
Definition BUFFER : string := "buffer".
Definition UINT32_ARRAY : string := "uint32array".
Definition SETPIXELCOLORS : Z := 0x00.
Definition SYSEX : Z := 0xff.

(** The [options] object of the constructor. *)
Record Options : Type := mkOptions {
  opt_dataFormat : option string;
  opt_channel : JS.value;
  opt_systemId : JS.value
}.

Definition no_options : Options :=
  {| opt_dataFormat := None; opt_channel := JS.Undefined; opt_systemId := JS.Undefined |}.

(** The fields of an instance; [_pushback] is [None] for [null]. *)
Record t : Type := mkStream {
  _pushback : option Buffer;
  dataFormat : string;
  channel : Z;
  systemId : Z
}.

Definition set_pushback (this : t) (p : option Buffer) : t :=
  {| _pushback := p; dataFormat := dataFormat this;
     channel := channel this; systemId := systemId this |}.

(** [constructor(options)]. *)
Definition constructor (options : option Options) : t :=
  let options := default no_options options in
  {| _pushback := None;
     dataFormat := JS.str_or (opt_dataFormat options) BUFFER;
     channel := JS.num_or (JS.double_not (opt_channel options)) 0;
     systemId := JS.num_or (JS.double_not (opt_systemId options)) 0xffff |}.

(** What the instance emits. *)
Inductive Event : Type :=
| Emit_setpixelcolors (data : PixelData)
| Emit_sysex (commandId : Z) (data : Buffer).

(** [setPixelColors(data)] and [sysex(commandId, data)]. *)
Definition setPixelColors (data : PixelData) : list Event :=
  [Emit_setpixelcolors data].
Definition sysex (commandId : Z) (data : Buffer) : list Event :=
  [Emit_sysex commandId data].

(** The number the loop of [_handleSetPixelColorsMessage] computes for
    the pixel [i], as the element store of a [Uint32Array] keeps it
    (modulo 2^32). *)
Definition pixel_at (data : Buffer) (i : nat) : Z :=
  JS.toUint32
    (JS.or (JS.or (JS.shl (Buf.readUInt8 data (3 * Z.of_nat i)) 16)
                  (JS.shl (Buf.readUInt8 data (3 * Z.of_nat i + 1)) 8))
           (Buf.readUInt8 data (3 * Z.of_nat i + 2))).

(** The conversion inside [_handleSetPixelColorsMessage]: one element
    per 3 bytes; [new Uint32Array(data.length / 3)] has the integer
    part of the quotient as its length. *)
Definition unpack_pixels (data : Buffer) : list Z :=
  let pixelData := replicate (Z.to_nat (Buf.len data / 3)) 0 in
  for_loop (length pixelData)
    (fun pixelData i => <[i := pixel_at data i]> pixelData)
    pixelData.

(** [_handleSetPixelColorsMessage(data)]. *)
Definition _handleSetPixelColorsMessage (this : t) (data : Buffer) : list Event :=
  if String.eqb (dataFormat this) BUFFER then setPixelColors (PxBuffer data)
  else setPixelColors (PxUint32Array (unpack_pixels data)).

(** [_handleSysExMessage(data)]. *)
Definition _handleSysExMessage (this : t) (data : Buffer) : list Event :=
  let systemId' := Buf.readUInt16BE data 0 in
  let sysexCommandId := Buf.readUInt16BE data 2 in
  if negb (systemId' =? systemId this) then []
  else sysex sysexCommandId (Buf.slice_from data 4).

(** [_handleOpcMessage(channel, command, data)]. *)
Definition _handleOpcMessage (this : t) (channel' command : Z) (data : Buffer)
  : list Event :=
  if (channel' >? 0) && negb (channel' =? channel this) then []
  else
    (if command =? SETPIXELCOLORS then _handleSetPixelColorsMessage this data
     else [])
    ++
    (if command =? SYSEX then
       if Buf.len data <? 4 then [] else _handleSysExMessage this data
     else []).

(** The [while (buffer.length > 0)] loop of [_write].  It threads
    [this._pushback] and collects what the calls of the message handler
    produce; the handler is a parameter, so that the same loop can also
    record the frames it is called with.  [None] is an exhausted
    [fuel]. *)
Fixpoint write_loop {E : Type} (handle : Z -> Z -> Buffer -> list E)
    (fuel : nat) (pushback : option Buffer) (buffer : Buffer)
  : option (option Buffer * list E) :=
  if Buf.len buffer >? 0 then
    match fuel with
    | O => None
    | S fuel =>
        if Buf.len buffer <? 4 then Some (Some buffer, [])
        else
          let channel' := Buf.readUInt8 buffer 0 in
          let command := Buf.readUInt8 buffer 1 in
          let length' := Buf.readUInt16BE buffer 2 in
          if Buf.len buffer <? 4 + length' then Some (Some buffer, [])
          else
            let pushback :=
              if Buf.len buffer >? 4 + length'
              then Some (Buf.slice_from buffer (4 + length'))
              else pushback in
            let data := Buf.slice buffer 4 (4 + length') in
            let out := handle channel' command data in
            match write_loop handle fuel pushback (Buf.slice_from buffer (4 + length')) with
            | Some (pushback, outs) => Some (pushback, out ++ outs)
            | None => None
            end
    end
  else Some (pushback, []).

(** The working buffer of [_write]: the pushback, if any, before the
    chunk. *)
Definition working_buffer (this : t) (buffer : Buffer) : Buffer :=
  match _pushback this with
  | Some p => Buf.concat p buffer
  | None => buffer
  end.

(** The argument of the callback: nothing, or an [Error] with its
    message. *)
Inductive Callback : Type :=
| Done
| Failed (message : string).

Record Outcome (E : Type) : Type := mkOutcome {
  after : t;
  callback : Callback;
  emitted : list E
}.
Arguments mkOutcome {E} _ _ _.
Arguments after {E} _.
Arguments callback {E} _.
Arguments emitted {E} _.

(** [_write(buffer, encoding, callback)] over a message handler.  A
    chunk whose encoding is not ['buffer'] is a string; the code does
    not look at it, so the model keeps its type. *)
Definition write_with {E : Type} (handle : t -> Z -> Z -> Buffer -> list E)
    (this : t) (buffer : Buffer) (encoding : string) : option (Outcome E) :=
  if negb (String.eqb encoding "buffer") then
    Some (mkOutcome this (Failed "expected data as Buffer") [])
  else
    let buffer := working_buffer this buffer in
    match write_loop (handle this) (length buffer) None buffer with
    | Some (pushback, outs) => Some (mkOutcome (set_pushback this pushback) Done outs)
    | None => None
    end.

(** [_write] itself, with the events it emits. *)
Definition _write (this : t) (buffer : Buffer) (encoding : string)
  : option (Outcome Event) :=
  write_with _handleOpcMessage this buffer encoding.

(** A frame as [_write] hands it to [_handleOpcMessage]. *)
Record Frame : Type := mkFrame {
  frame_channel : Z;
  frame_command : Z;
  frame_data : Buffer
}.

(** The pushback the loop holds after a complete frame that is
    followed by [rest]: the bytes after the frame if there are any,
    else what it held before. *)
Definition pushback_past (pushback : option Buffer) (rest : Buffer) : option Buffer :=
  match rest with
  | [] => pushback
  | _ :: _ => Some rest
  end.

(** A handler that records its arguments, and a handler applied to a
    recorded frame. *)
Definition record_frame (c k : Z) (d : Buffer) : list Frame := [mkFrame c k d].

Definition replay {E : Type} (handle : Z -> Z -> Buffer -> list E) (f : Frame)
  : list E :=
  handle (frame_channel f) (frame_command f) (frame_data f).

(** [_write] with the recording handler: the frames dispatched by the
    call. *)
Definition write_frames (this : t) (buffer : Buffer) (encoding : string)
  : option (Outcome Frame) :=
  write_with (fun _ => record_frame) this buffer encoding.

(** A sequence of chunks written one after the other, all as buffers. *)
Fixpoint write_all {E : Type} (handle : t -> Z -> Z -> Buffer -> list E)
    (this : t) (chunks : list Buffer) : option (t * list E) :=
  match chunks with
  | [] => Some (this, [])
  | chunk :: chunks =>
      match write_with handle this chunk "buffer" with
      | Some o =>
          match write_all handle (after o) chunks with
          | Some (this, outs) => Some (this, emitted o ++ outs)
          | None => None
          end
      | None => None
      end
  end.

Definition frames_of_chunks (this : t) (chunks : list Buffer)
  : option (t * list Frame) :=
  write_all (fun _ => record_frame) this chunks.

(** The wire bytes of a frame, by the encoder. *)
Definition encode (f : Frame) : Buffer :=
  OpcClientStream.createMessage (frame_channel f) (frame_command f) (frame_data f).

(** The wire bytes of a sequence of frames. *)
Definition wire (frames : list Frame) : Buffer := flat_map encode frames.

(** The pushback the loop holds once it has gone through a buffer made
    of complete frames. *)
Fixpoint pushback_after (pushback : option Buffer) (frames : list Frame)
  : option Buffer :=
  match frames with
  | [] => pushback
  | _ :: rest => pushback_after (pushback_past pushback (wire rest)) rest
  end.

(** A frame the encoder represents exactly. *)
Definition well_formed (f : Frame) : Prop :=
  0 <= frame_channel f < 256 /\ 0 <= frame_command f < 256 /\
  Buf.len (frame_data f) <= 65535.

End OpcParseStream.

(** ** Notions the properties are stated with *)

(** An instance that holds the bytes [acc] of a frame that is not yet
    complete; no pushback when there are none. *)
Definition with_pending (this : OpcParseStream.t) (acc : Buffer) : OpcParseStream.t :=
  OpcParseStream.set_pushback this
    (match acc with
     | [] => None
     | _ :: _ => Some acc
     end).

(** A buffer that does not start with a complete frame: the header is
    short, or the payload it announces is. *)
Definition incomplete (b : Buffer) : Prop :=
  Buf.len b < 4 \/ Buf.len b < 4 + Buf.readUInt16BE b 2.

(** The payload of the frame [OpcClientStream.sysex] builds: the system id,
    big endian, before the data. *)
Definition sysex_payload (systemId : Z) (data : Buffer) : Buffer :=
  Buf.of_Z (JS.ushr systemId 8) :: Buf.of_Z systemId :: data.

(** * Properties *)

(** Settle a comparison whose outcome [lia] knows. *)
Ltac cmp_is b :=
  match goal with
  | |- context [?x >? ?y] =>
      let H := fresh in
      assert (H : (x >? y) = b)
        by (first [apply Z.gtb_lt; lia | rewrite Z.gtb_ltb; apply Z.ltb_ge; lia]);
      rewrite H; clear H
  | |- context [?x <? ?y] =>
      let H := fresh in
      assert (H : (x <? y) = b)
        by (first [apply Z.ltb_lt; lia | apply Z.ltb_ge; lia]);
      rewrite H; clear H
  end.

(** ** Bytes and buffers *)

Section Bytes.

Lemma to_Z_range (b : byte) : 0 <= Buf.to_Z b < 256.
Proof.
  unfold Buf.to_Z. pose proof (Byte.to_N_bounded b) as Hb. lia.
Qed.

Lemma to_of_Z (v : Z) : Buf.to_Z (Buf.of_Z v) = v mod 256.
Proof.
  unfold Buf.to_Z, Buf.of_Z.
  assert (Hr : 0 <= v mod 256 < 256) by (apply Z.mod_pos_bound; lia).
  destruct (Byte.of_N (Z.to_N (v mod 256))) as [b|] eqn:Hof.
  - apply Byte.to_of_N in Hof. simpl. rewrite Hof. lia.
  - apply Byte.of_N_None_iff in Hof. lia.
Qed.

Lemma of_to_Z (b : byte) : Buf.of_Z (Buf.to_Z b) = b.
Proof.
  unfold Buf.of_Z. rewrite Z.mod_small by apply to_Z_range.
  unfold Buf.to_Z. rewrite N2Z.id, Byte.of_to_N. reflexivity.
Qed.

Lemma to_of_Z_small (v : Z) : 0 <= v < 256 -> Buf.to_Z (Buf.of_Z v) = v.
Proof. intros Hv. rewrite to_of_Z. apply Z.mod_small, Hv. Qed.

Lemma len_nonneg (b : Buffer) : 0 <= Buf.len b.
Proof. unfold Buf.len. lia. Qed.

Lemma len_app (a b : Buffer) : Buf.len (a ++ b) = Buf.len a + Buf.len b.
Proof. unfold Buf.len. rewrite length_app. lia. Qed.

Lemma len_cons (x : byte) (b : Buffer) : Buf.len (x :: b) = 1 + Buf.len b.
Proof. unfold Buf.len. simpl length. lia. Qed.

End Bytes.

(** ** The encoder *)

Section Encoder.

Import OpcClientStream.

(** The message as a list: four header bytes, then the payload. *)
Lemma createMessage_bytes (channel command : Z) (data : Buffer) :
  createMessage channel command data =
  Buf.of_Z channel :: Buf.of_Z command ::
  Buf.of_Z (JS.ushr (Buf.len data) 8) :: Buf.of_Z (Buf.len data) :: data.
Proof.
  unfold createMessage, Buf.copy, Buf.writeUInt16BE, Buf.writeUInt8, Buf.alloc.
  replace (Z.to_nat (4 + Buf.len data)) with (4 + length data)%nat
    by (unfold Buf.len; lia).
  change (Z.to_nat 0) with 0%nat. change (Z.to_nat 1) with 1%nat.
  change (Z.to_nat 2) with 2%nat. change (Z.to_nat (2 + 1)) with 3%nat.
  change (Z.to_nat 4) with 4%nat.
  cbn [Nat.add replicate]. cbn [insert list_insert].
  rewrite !list_inserts_cons.
  rewrite <- (app_nil_r (replicate (length data) x00)).
  rewrite list_inserts_0_r by (rewrite length_replicate; reflexivity).
  rewrite app_nil_r. reflexivity.
Qed.

(** The two length bytes, read back as one big-endian number. *)
Lemma length_field (n : Z) :
  Buf.to_Z (Buf.of_Z (JS.ushr n 8)) * 256 + Buf.to_Z (Buf.of_Z n) = n mod 2 ^ 16.
Proof.
  rewrite !to_of_Z. unfold JS.ushr, JS.toUint32.
  change (8 mod 2 ^ 32 mod 32) with 8.
  rewrite Z.shiftr_div_pow2 by lia.
  change (2 ^ 32) with (2 ^ 16 * 2 ^ 16). change (2 ^ 8) with 256.
  change (2 ^ 16) with 65536.
  pose proof (Z.div_mod n (65536 * 65536) ltac:(lia)) as H1.
  pose proof (Z.mod_pos_bound n (65536 * 65536) ltac:(lia)) as B1.
  set (r := n mod (65536 * 65536)) in *.
  set (q := n / (65536 * 65536)) in *.
  assert (Hn : n mod 65536 = r mod 65536).
  { rewrite H1. rewrite Z.add_comm.
    replace (65536 * 65536 * q) with ((65536 * q) * 65536) by lia.
    apply Z.mod_add. lia. }
  assert (Hn' : n mod 256 = r mod 256).
  { rewrite H1. rewrite Z.add_comm.
    replace (65536 * 65536 * q) with ((65536 * 65536 / 256 * q) * 256)
      by (change (65536 * 65536 / 256) with 16777216; lia).
    apply Z.mod_add. lia. }
  rewrite Hn, Hn'.
  pose proof (Z.div_mod r 256 ltac:(lia)) as H2.
  pose proof (Z.mod_pos_bound r 256 ltac:(lia)) as B2.
  pose proof (Z.div_mod (r / 256) 256 ltac:(lia)) as H3.
  pose proof (Z.mod_pos_bound (r / 256) 256 ltac:(lia)) as B3.
  set (a := r / 256) in *. set (lo := r mod 256) in *.
  set (hi := a mod 256) in *. set (t := a / 256) in *.
  apply (Z.mod_unique_pos _ _ t); lia.
Qed.

End Encoder.

(** ** The parse loop *)

Section ParseLoop.

Import OpcParseStream.

Context {E : Type} (handle : Z -> Z -> Buffer -> list E).

Lemma readUInt8_range (buf : Buffer) (offset : Z) :
  0 <= Buf.readUInt8 buf offset < 256.
Proof.
  unfold Buf.readUInt8. destruct (buf !! Z.to_nat offset) as [b|]; simpl.
  - apply to_Z_range.
  - lia.
Qed.

Lemma readUInt16BE_range (buf : Buffer) (offset : Z) :
  0 <= Buf.readUInt16BE buf offset < 65536.
Proof.
  unfold Buf.readUInt16BE.
  pose proof (readUInt8_range buf offset).
  pose proof (readUInt8_range buf (offset + 1)). lia.
Qed.

(** The header fields of a buffer that holds at least four bytes. *)
Lemma header_reads (b0 b1 b2 b3 : byte) (tl : Buffer) :
  Buf.readUInt8 (b0 :: b1 :: b2 :: b3 :: tl) 0 = Buf.to_Z b0 /\
  Buf.readUInt8 (b0 :: b1 :: b2 :: b3 :: tl) 1 = Buf.to_Z b1 /\
  Buf.readUInt16BE (b0 :: b1 :: b2 :: b3 :: tl) 2 = Buf.to_Z b2 * 256 + Buf.to_Z b3.
Proof. repeat split; reflexivity. Qed.

(** One turn of the loop. *)
Lemma write_loop_S (fuel : nat) (pushback : option Buffer) (buffer : Buffer) :
  write_loop handle (S fuel) pushback buffer =
  if Buf.len buffer >? 0 then
    if Buf.len buffer <? 4 then Some (Some buffer, [])
    else
      let length' := Buf.readUInt16BE buffer 2 in
      if Buf.len buffer <? 4 + length' then Some (Some buffer, [])
      else
        match
          write_loop handle fuel
            (if Buf.len buffer >? 4 + length'
             then Some (Buf.slice_from buffer (4 + length')) else pushback)
            (Buf.slice_from buffer (4 + length'))
        with
        | Some (pushback, outs) =>
            Some (pushback,
                  handle (Buf.readUInt8 buffer 0) (Buf.readUInt8 buffer 1)
                    (Buf.slice buffer 4 (4 + length')) ++ outs)
        | None => None
        end
  else Some (pushback, []).
Proof. reflexivity. Qed.

Lemma write_loop_nil (fuel : nat) (pushback : option Buffer) :
  write_loop handle fuel pushback [] = Some (pushback, []).
Proof. destruct fuel; reflexivity. Qed.

(** The loop ends: a fuel of the buffer's length is never exhausted,
    every turn that goes on drops at least the four header bytes. *)
Lemma write_loop_total (fuel : nat) :
  forall (pushback : option Buffer) (buffer : Buffer),
    (length buffer <= fuel)%nat ->
    exists r, write_loop handle fuel pushback buffer = Some r.
Proof.
  induction fuel as [|fuel IH]; intros pushback buffer Hlen.
  - destruct buffer; [|simpl in Hlen; lia]. eexists. reflexivity.
  - rewrite write_loop_S.
    destruct (Buf.len buffer >? 0) eqn:H0; [|eexists; reflexivity].
    destruct (Buf.len buffer <? 4) eqn:H4; [eexists; reflexivity|].
    cbv zeta.
    destruct (Buf.len buffer <? 4 + Buf.readUInt16BE buffer 2) eqn:Hl;
      [eexists; reflexivity|].
    pose proof (readUInt16BE_range buffer 2) as Hr.
    apply Z.ltb_ge in H4. unfold Buf.len in H4.
    match goal with
    | |- context [write_loop handle fuel ?p ?b] =>
        destruct (IH p b) as [[p' outs] Hrec]
    end.
    { unfold Buf.slice_from. rewrite length_drop. lia. }
    rewrite Hrec. eexists. reflexivity.
Qed.

(** More fuel than the buffer's length changes nothing. *)
Lemma write_loop_fuel (fuel : nat) :
  forall (fuel' : nat) (pushback : option Buffer) (buffer : Buffer),
    (length buffer <= fuel)%nat -> (length buffer <= fuel')%nat ->
    write_loop handle fuel pushback buffer = write_loop handle fuel' pushback buffer.
Proof.
  induction fuel as [|fuel IH]; intros fuel' pushback buffer Hlen Hlen'.
  - destruct buffer; [|simpl in Hlen; lia]. rewrite !write_loop_nil. reflexivity.
  - destruct fuel' as [|fuel'].
    { destruct buffer; [|simpl in Hlen'; lia]. rewrite !write_loop_nil. reflexivity. }
    rewrite !write_loop_S.
    destruct (Buf.len buffer >? 0) eqn:H0; [|reflexivity].
    destruct (Buf.len buffer <? 4) eqn:H4; [reflexivity|].
    cbv zeta.
    destruct (Buf.len buffer <? 4 + Buf.readUInt16BE buffer 2) eqn:Hl;
      [reflexivity|].
    pose proof (readUInt16BE_range buffer 2) as Hr.
    apply Z.ltb_ge in H4. unfold Buf.len in H4.
    rewrite (IH fuel'); [reflexivity| |];
      unfold Buf.slice_from; rewrite length_drop; lia.
Qed.

End ParseLoop.

Section Recording.

Import OpcParseStream.

Context {E : Type} (handle : Z -> Z -> Buffer -> list E).

(** What the loop produces with a handler is the handler applied to
    the frames the loop dispatches, in their order. *)
Lemma write_loop_replay (fuel : nat) :
  forall (pushback : option Buffer) (buffer : Buffer),
    write_loop handle fuel pushback buffer =
    match write_loop record_frame fuel pushback buffer with
    | Some (p, frames) => Some (p, flat_map (replay handle) frames)
    | None => None
    end.
Proof.
  induction fuel as [|fuel IH]; intros pushback buffer.
  - simpl. destruct (Buf.len buffer >? 0); reflexivity.
  - rewrite !write_loop_S.
    destruct (Buf.len buffer >? 0); [|reflexivity].
    destruct (Buf.len buffer <? 4); [reflexivity|].
    cbv zeta.
    destruct (Buf.len buffer <? 4 + Buf.readUInt16BE buffer 2); [reflexivity|].
    rewrite IH.
    match goal with
    | |- context [write_loop record_frame fuel ?p ?b] =>
        destruct (write_loop record_frame fuel p b) as [[p' frames]|]
    end; [|reflexivity].
    reflexivity.
Qed.

End Recording.

(** ** Decoding what the encoder wrote *)

Section Decoding.

Import OpcParseStream.

Context {E : Type} (handle : Z -> Z -> Buffer -> list E).

(** A buffer that starts with an encoded frame: the loop hands the frame
    to the handler and goes on with the bytes after it. *)
Lemma write_loop_frame (fuel : nat) (pushback : option Buffer)
    (c k : Z) (d rest : Buffer) :
  0 <= c < 256 -> 0 <= k < 256 -> Buf.len d <= 65535 ->
  write_loop handle (S fuel) pushback (OpcClientStream.createMessage c k d ++ rest) =
  match write_loop handle fuel (pushback_past pushback rest) rest with
  | Some (p, outs) => Some (p, handle c k d ++ outs)
  | None => None
  end.
Proof.
  intros Hc Hk Hd.
  rewrite createMessage_bytes, write_loop_S.
  rewrite <- !app_comm_cons.
  destruct (header_reads (Buf.of_Z c) (Buf.of_Z k)
              (Buf.of_Z (JS.ushr (Buf.len d) 8)) (Buf.of_Z (Buf.len d))
              (d ++ rest)) as (R0 & R1 & R2).
  rewrite R0, R1, R2, length_field.
  rewrite !to_of_Z_small by assumption.
  pose proof (len_nonneg d) as Hd0. pose proof (len_nonneg rest) as Hr0.
  rewrite (Z.mod_small (Buf.len d)) by (change (2 ^ 16) with 65536; lia).
  rewrite !len_cons, len_app.
  cbv zeta.
  cmp_is true. cmp_is false. cmp_is false.
  assert (Hslice : Buf.slice (Buf.of_Z c :: Buf.of_Z k ::
                     Buf.of_Z (JS.ushr (Buf.len d) 8) :: Buf.of_Z (Buf.len d) ::
                     d ++ rest) 4 (4 + Buf.len d) = d).
  { unfold Buf.slice. change (Z.to_nat 4) with 4%nat. cbn [drop].
    apply take_app_length'. unfold Buf.len. lia. }
  assert (Hfrom : Buf.slice_from (Buf.of_Z c :: Buf.of_Z k ::
                     Buf.of_Z (JS.ushr (Buf.len d) 8) :: Buf.of_Z (Buf.len d) ::
                     d ++ rest) (4 + Buf.len d) = rest).
  { unfold Buf.slice_from.
    replace (Z.to_nat (4 + Buf.len d)) with (4 + length d)%nat
      by (unfold Buf.len; lia).
    cbn [Nat.add drop]. apply drop_app_length. }
  rewrite Hslice, Hfrom.
  assert (Hp : (if 1 + (1 + (1 + (1 + (Buf.len d + Buf.len rest)))) >? 4 + Buf.len d
                then Some rest else pushback) = pushback_past pushback rest).
  { destruct rest as [|x rest']; simpl pushback_past.
    - change (Buf.len []) with 0. cmp_is false. reflexivity.
    - rewrite len_cons. pose proof (len_nonneg rest'). cmp_is true. reflexivity. }
  rewrite Hp. reflexivity.
Qed.

End Decoding.

(** ** Frame layout *)

Section Layout.

Import OpcClientStream.

Lemma len_alloc (n : Z) : 0 <= n -> Buf.len (Buf.alloc n) = n.
Proof.
  intros Hn. unfold Buf.len, Buf.alloc. rewrite length_replicate. lia.
Qed.

Lemma len_writeUInt8 (buf : Buffer) (value offset : Z) :
  Buf.len (Buf.writeUInt8 buf value offset) = Buf.len buf.
Proof. unfold Buf.len, Buf.writeUInt8. f_equal. apply length_insert. Qed.

Lemma len_writeUInt16BE (buf : Buffer) (value offset : Z) :
  Buf.len (Buf.writeUInt16BE buf value offset) = Buf.len buf.
Proof.
  unfold Buf.len, Buf.writeUInt16BE. f_equal.
  etransitivity; apply length_insert.
Qed.

Lemma len_copy (src target : Buffer) (targetStart : Z) :
  Buf.len (Buf.copy src target targetStart) = Buf.len target.
Proof. unfold Buf.len, Buf.copy. f_equal. apply length_inserts. Qed.

Lemma in_range_true (buf : Buffer) (value max offset size : Z) :
  0 <= value <= max -> 0 <= offset -> offset + size <= Buf.len buf ->
  Checked.in_range buf value max offset size = true.
Proof.
  intros Hv Ho Hs. unfold Checked.in_range.
  rewrite !andb_true_iff, !Z.leb_le. lia.
Qed.

(** For a channel and a command of one byte and a payload of at most
    65535 bytes no write of [createMessage] is out of range: the runtime
    makes no difference, and the message is the one of the unchecked
    stores. *)
Lemma createMessage_any_runtime (rt : Runtime) (channel command : Z) (payload : Buffer) :
  0 <= channel < 256 -> 0 <= command < 256 -> Buf.len payload <= 65535 ->
  Checked.createMessage rt channel command payload =
  Some (createMessage channel command payload).
Proof.
  intros Hc Hk Hd. destruct rt; [reflexivity|].
  pose proof (len_nonneg payload) as Hp.
  unfold Checked.createMessage, Checked.writeUInt8, Checked.writeUInt16BE.
  rewrite in_range_true by (rewrite ?len_alloc; lia).
  rewrite in_range_true by (rewrite ?len_writeUInt8, ?len_alloc; lia).
  rewrite in_range_true by (rewrite ?len_writeUInt8, ?len_alloc; lia).
  reflexivity.
Qed.

(** The same for [sysex], with a system id of 16 bits and room for it in
    the 16-bit length. *)
Lemma sysex_any_runtime (rt : Runtime) (tx : OpcClientStream.t)
    (channel systemId : Z) (data : Buffer) :
  0 <= channel < 256 -> 0 <= systemId < 65536 -> 2 + Buf.len data <= 65535 ->
  Checked.sysex rt tx channel systemId data =
  Some (OpcClientStream.sysex tx channel systemId data).
Proof.
  intros Hc Hs Hd. pose proof (len_nonneg data) as Hp.
  unfold Checked.sysex, OpcClientStream.sysex.
  assert (Hw : Checked.writeUInt16BE rt (Buf.alloc (2 + Buf.len data)) systemId 0 =
               Some (Buf.writeUInt16BE (Buf.alloc (2 + Buf.len data)) systemId 0)).
  { destruct rt; [reflexivity|]. unfold Checked.writeUInt16BE.
    rewrite in_range_true by (rewrite ?len_alloc; lia). reflexivity. }
  rewrite Hw, createMessage_any_runtime; [reflexivity | lia | unfold SYSEX; lia |].
  rewrite len_copy, len_writeUInt16BE, len_alloc by lia. exact Hd.
Qed.


(** C9, amended.  For a payload of more than 65535 bytes the outcome of
    [createMessage] depends on the runtime.  Where the [noAssert] flag the
    code passes is honoured, the call returns a message with the whole
    payload in it, whose length field holds the payload length modulo
    2^16, less than the length.  Where the flag is ignored, the write of
    the length throws and no message is returned. *)
Theorem createMessage_oversized (channel command : Z) (payload : Buffer) :
  65535 < Buf.len payload ->
  (exists msg : Buffer,
     Checked.createMessage HonoursNoAssert channel command payload = Some msg /\
     Buf.len msg = 4 + Buf.len payload /\
     Buf.slice_from msg 4 = payload /\
     Buf.readUInt16BE msg 2 = Buf.len payload mod 2 ^ 16 /\
     Buf.readUInt16BE msg 2 < Buf.len payload) /\
  Checked.createMessage IgnoresNoAssert channel command payload = None.
Proof.
  intros Hbig. split.
  - exists (createMessage channel command payload). split; [reflexivity|].
    rewrite createMessage_bytes.
    match goal with
    | |- context [?b0 :: ?b1 :: ?b2 :: ?b3 :: payload] =>
        destruct (header_reads b0 b1 b2 b3 payload) as (_ & _ & R2)
    end.
    rewrite R2, length_field.
    repeat split.
    + rewrite !len_cons. lia.
    + pose proof (Z.mod_pos_bound (Buf.len payload) (2 ^ 16) ltac:(lia)) as Hm.
      change (2 ^ 16) with 65536 in *. lia.
  - unfold Checked.createMessage, Checked.writeUInt8, Checked.writeUInt16BE.
    destruct (Checked.in_range _ channel 255 0 1); [|reflexivity].
    destruct (Checked.in_range _ command 255 1 1); [|reflexivity].
    unfold Checked.in_range.
    assert (Hle : (Buf.len payload <=? 65535) = false) by (apply Z.leb_gt; lia).
    rewrite Hle, andb_false_r. reflexivity.
Qed.

End Layout.


(** On a runtime that checks the writes, a payload of 65537 bytes is
    refused. *)
Lemma createMessage_oversized_throws :
  65535 < Buf.len (replicate (Z.to_nat 65537) x00) /\
  Checked.createMessage IgnoresNoAssert 1 0 (replicate (Z.to_nat 65537) x00) = None.
Proof.
  split; vm_compute; reflexivity.
Qed.

Lemma createMessage_oversized_witness :
  65535 < Buf.len (replicate (Z.to_nat 65537) x00) /\
  exists msg : Buffer,
    Checked.createMessage HonoursNoAssert 1 0 (replicate (Z.to_nat 65537) x00) = Some msg /\
    Buf.readUInt16BE msg 2 = Buf.len (replicate (Z.to_nat 65537) x00) mod 2 ^ 16.
Proof.
  assert (H : 65535 < Buf.len (replicate (Z.to_nat 65537) x00))
    by (vm_compute; reflexivity).
  split; [exact H|].
  destruct (proj1 (createMessage_oversized 1 0 _ H)) as (msg & Hmsg & _ & _ & Hfield & _).
  exists msg. split; [exact Hmsg | exact Hfield].
Defined.

(** ** Writing to the decoder *)

Section Write.

Import OpcParseStream.

Lemma set_pushback_id (this : t) : set_pushback this (_pushback this) = this.
Proof. destruct this; reflexivity. Qed.

(** The message handler reads the configuration only. *)
Lemma handle_ignores_pushback (this : t) (p : option Buffer) :
  _handleOpcMessage (set_pushback this p) = _handleOpcMessage this.
Proof. reflexivity. Qed.

(** [_write] always calls back: the fuel it runs the loop with is
    enough. *)
Lemma write_with_total {E : Type} (handle : t -> Z -> Z -> Buffer -> list E)
    (this : t) (buffer : Buffer) (encoding : string) :
  exists o, write_with handle this buffer encoding = Some o.
Proof.
  unfold write_with. destruct (negb (String.eqb encoding "buffer")).
  - eexists. reflexivity.
  - destruct (write_loop_total (handle this) (length (working_buffer this buffer))
                None (working_buffer this buffer)) as [[p outs] Hr]; [lia|].
    rewrite Hr. eexists. reflexivity.
Qed.

(** What [_write] emits is the message handler applied to the frames
    the call dispatches, in their order. *)
Lemma write_events_of_frames (this : t) (buffer : Buffer) (encoding : string) :
  _write this buffer encoding =
  match write_frames this buffer encoding with
  | Some o =>
      Some (mkOutcome (after o) (callback o)
              (flat_map (replay (_handleOpcMessage this)) (emitted o)))
  | None => None
  end.
Proof.
  unfold _write, write_frames, write_with.
  destruct (negb (String.eqb encoding "buffer")); [reflexivity|].
  rewrite write_loop_replay.
  destruct (write_loop record_frame _ None _) as [[p frames]|]; reflexivity.
Qed.

(** C8.  A [_write] whose encoding is not ['buffer'] calls back with an
    error and leaves the instance as it was, pushback and configuration:
    no byte is consumed, no frame is dispatched, nothing is emitted. *)
Theorem write_rejects_non_buffer (this : t) (buffer : Buffer) (encoding : string) :
  encoding <> "buffer"%string ->
  _write this buffer encoding =
    Some (mkOutcome this (Failed "expected data as Buffer") []) /\
  write_frames this buffer encoding =
    Some (mkOutcome this (Failed "expected data as Buffer") []).
Proof.
  intros Hne. apply String.eqb_neq in Hne.
  unfold _write, write_frames, write_with. rewrite Hne. split; reflexivity.
Qed.

(** C3.  A decoder that holds no pushback and is fed the message
    [createMessage] made of a channel, a command and a payload of at
    most 65535 bytes hands exactly that channel, command and payload to
    its message handler, once, and holds no pushback afterwards. *)
Theorem createMessage_roundtrip (this : t) (channel command : Z) (payload : Buffer) :
  _pushback this = None ->
  0 <= channel < 256 -> 0 <= command < 256 -> Buf.len payload <= 65535 ->
  write_frames this (OpcClientStream.createMessage channel command payload) "buffer" =
    Some (mkOutcome this Done [mkFrame channel command payload]) /\
  _write this (OpcClientStream.createMessage channel command payload) "buffer" =
    Some (mkOutcome this Done (_handleOpcMessage this channel command payload)).
Proof.
  intros Hp Hc Hk Hd.
  assert (Hloop : forall (E : Type) (h : Z -> Z -> Buffer -> list E),
    write_loop h (length (OpcClientStream.createMessage channel command payload))
      None (OpcClientStream.createMessage channel command payload) =
    Some (None, h channel command payload)).
  { intros E h.
    replace (length (OpcClientStream.createMessage channel command payload))
      with (S (3 + length payload)) by (rewrite createMessage_bytes; reflexivity).
    rewrite <- (app_nil_r (OpcClientStream.createMessage channel command payload)).
    rewrite write_loop_frame by assumption.
    rewrite write_loop_nil, app_nil_r. reflexivity. }
  unfold _write, write_frames, write_with, working_buffer.
  rewrite Hp. cbn [String.eqb Ascii.eqb Bool.eqb negb].
  rewrite !Hloop. rewrite <- Hp, set_pushback_id. split; reflexivity.
Qed.

End Write.

Lemma write_rejects_non_buffer_witness :
  "utf8"%string <> "buffer"%string /\
  OpcParseStream._write (OpcParseStream.constructor None) [x01; x00] "utf8" =
    Some (OpcParseStream.mkOutcome (OpcParseStream.constructor None)
            (OpcParseStream.Failed "expected data as Buffer") []).
Proof.
  assert (H : "utf8"%string <> "buffer"%string) by discriminate.
  split; [exact H|].
  exact (proj1 (write_rejects_non_buffer (OpcParseStream.constructor None)
                  [x01; x00] "utf8" H)).
Defined.

Lemma createMessage_roundtrip_witness :
  OpcParseStream.write_frames (OpcParseStream.constructor None)
    (OpcClientStream.createMessage 1 0 [x00; x00; xff; x00; xff; x00]) "buffer" =
  Some (OpcParseStream.mkOutcome (OpcParseStream.constructor None) OpcParseStream.Done
          [OpcParseStream.mkFrame 1 0 [x00; x00; xff; x00; xff; x00]]).
Proof.
  refine (proj1 (createMessage_roundtrip (OpcParseStream.constructor None) 1 0
                   [x00; x00; xff; x00; xff; x00] _ _ _ _)).
  - reflexivity.
  - lia.
  - lia.
  - vm_compute. discriminate.
Defined.

(** ** Dispatch *)

Section Dispatch.

Import OpcParseStream.

(** C5.  A frame on channel 0 is handled exactly as a frame on the
    receiver's own channel is, whatever that channel: a SetPixelColors
    frame reaches the pixel handler, every other command goes through
    the same command dispatch.  A frame whose channel is not 0 and not
    the receiver's is dropped: nothing is emitted. *)
Theorem channel_filter (this : t) (command : Z) (data : Buffer) :
  (_handleOpcMessage this 0 command data =
     _handleOpcMessage this (channel this) command data) /\
  (forall c : Z,
     _handleOpcMessage (mkStream (_pushback this) (dataFormat this) c (systemId this))
       0 command data = _handleOpcMessage this 0 command data) /\
  (_handleOpcMessage this 0 SETPIXELCOLORS data =
     _handleSetPixelColorsMessage this data) /\
  (forall channel' : Z,
     0 <= channel' < 256 -> channel' <> 0 -> channel' <> channel this ->
     _handleOpcMessage this channel' command data = []).
Proof.
  unfold _handleOpcMessage. repeat split.
  - rewrite Z.eqb_refl. cbn [negb]. rewrite andb_false_r. reflexivity.
  - cbn. apply app_nil_r.
  - intros channel' Hrange Hnz Hne.
    assert (H1 : (channel' >? 0) = true) by (apply Z.gtb_lt; lia).
    assert (H2 : (channel' =? channel this) = false) by (apply Z.eqb_neq; exact Hne).
    rewrite H1, H2. reflexivity.
Qed.

(** What a SysEx frame that is not dropped makes the receiver emit. *)
Lemma sysex_frame (this : t) (channel' : Z) (data : Buffer) :
  _handleOpcMessage this channel' SYSEX data =
  if (channel' >? 0) && negb (channel' =? channel this) then []
  else if Buf.len data <? 4 then []
  else if Buf.readUInt16BE data 0 =? systemId this
       then [Emit_sysex (Buf.readUInt16BE data 2) (Buf.slice_from data 4)]
       else [].
Proof.
  unfold _handleOpcMessage, _handleSysExMessage, sysex.
  destruct ((channel' >? 0) && negb (channel' =? channel this)); [reflexivity|].
  change (SYSEX =? SETPIXELCOLORS) with false. change (SYSEX =? SYSEX) with true.
  cbn [app]. destruct (Buf.len data <? 4); [reflexivity|].
  destruct (Buf.readUInt16BE data 0 =? systemId this); reflexivity.
Qed.

(** C4, amended.  A SysEx frame is dropped, with nothing emitted, when
    its payload has fewer than 4 bytes, when the big-endian 16-bit
    system id at offset 0 is not the receiver's, and when its channel
    is neither 0 nor the receiver's.  Otherwise (channel 0 or the
    receiver's, at least 4 bytes, matching system id) the sysex handler
    runs exactly once, with the big-endian 16-bit number at offset 2 and
    the payload from offset 4 on. *)
Theorem sysex_dispatch (this : t) (channel' : Z) (data : Buffer) :
  0 <= channel' < 256 ->
  (Buf.len data < 4 \/ Buf.readUInt16BE data 0 <> systemId this ->
     _handleOpcMessage this channel' SYSEX data = []) /\
  (channel' <> 0 /\ channel' <> channel this ->
     _handleOpcMessage this channel' SYSEX data = []) /\
  (channel' = 0 \/ channel' = channel this ->
     4 <= Buf.len data -> Buf.readUInt16BE data 0 = systemId this ->
     _handleOpcMessage this channel' SYSEX data =
       [Emit_sysex (Buf.readUInt16BE data 2) (Buf.slice_from data 4)]).
Proof.
  intros Hrange. rewrite sysex_frame. repeat split.
  - intros Hdrop.
    destruct ((channel' >? 0) && negb (channel' =? channel this)); [reflexivity|].
    destruct (Z.ltb_spec (Buf.len data) 4); [reflexivity|].
    destruct (Z.eqb_spec (Buf.readUInt16BE data 0) (systemId this)); [|reflexivity].
    destruct Hdrop; [lia|contradiction].
  - intros [Hnz Hne].
    assert (H1 : (channel' >? 0) = true) by (apply Z.gtb_lt; lia).
    assert (H2 : (channel' =? channel this) = false) by (apply Z.eqb_neq; exact Hne).
    rewrite H1, H2. reflexivity.
  - intros Hpass Hlen Hid.
    assert (H1 : (channel' >? 0) && negb (channel' =? channel this) = false).
    { destruct Hpass as [-> | ->].
      - reflexivity.
      - rewrite Z.eqb_refl. apply andb_false_r. }
    rewrite H1.
    destruct (Z.ltb_spec (Buf.len data) 4); [lia|].
    rewrite Hid, Z.eqb_refl. reflexivity.
Qed.

(** C10.  Options whose [systemId] is absent, 0, or any number that
    [~~] takes to 0 give a receiver whose system id is 0xffff, and such
    a receiver emits nothing for a SysEx frame whose system id field is
    0, on any channel. *)
Theorem systemId_zero_unconfigurable (options : option Options) :
  JS.double_not (opt_systemId (default no_options options)) = 0 ->
  systemId (constructor options) = 0xffff /\
  (forall (channel' : Z) (data : Buffer),
     Buf.readUInt16BE data 0 = 0 ->
     _handleOpcMessage (constructor options) channel' SYSEX data = []).
Proof.
  intros Hz.
  assert (Hid : systemId (constructor options) = 0xffff).
  { unfold constructor. cbn [systemId]. rewrite Hz. reflexivity. }
  split; [exact Hid|].
  intros channel' data H0. rewrite sysex_frame, Hid, H0.
  change (0 =? 0xffff) with false.
  destruct ((channel' >? 0) && negb (channel' =? channel (constructor options)));
    [reflexivity|].
  destruct (Buf.len data <? 4); reflexivity.
Qed.

End Dispatch.

(** A SysEx frame for channel 5, with the default system id 0xffff and
    command id 7, and a receiver on channel 7. *)
Lemma sysex_on_other_channel_not_dispatched :
  let this := OpcParseStream.constructor
                (Some (OpcParseStream.mkOptions None (JS.Number 7) JS.Undefined)) in
  let data := [xff; xff; x00; x07; x09] in
  4 <= Buf.len data /\
  Buf.readUInt16BE data 0 = OpcParseStream.systemId this /\
  OpcParseStream._handleOpcMessage this 5 OpcParseStream.SYSEX data = [] /\
  OpcParseStream._handleOpcMessage this 5 OpcParseStream.SYSEX data <>
    [OpcParseStream.Emit_sysex (Buf.readUInt16BE data 2) (Buf.slice_from data 4)].
Proof.
  cbv zeta. repeat split; try (vm_compute; discriminate).
Qed.

Lemma sysex_dispatch_witness :
  let this := OpcParseStream.constructor None in
  let data := [xff; xff; x00; x07; x09] in
  0 <= 0 < 256 /\
  OpcParseStream._handleOpcMessage this 0 OpcParseStream.SYSEX data =
    [OpcParseStream.Emit_sysex 7 [x09]].
Proof.
  cbv zeta. split; [lia|].
  refine (proj2 (proj2 (sysex_dispatch (OpcParseStream.constructor None) 0
                          [xff; xff; x00; x07; x09] _)) _ _ _).
  - lia.
  - left. reflexivity.
  - vm_compute. discriminate.
  - reflexivity.
Defined.

Lemma channel_filter_witness :
  let this := OpcParseStream.constructor
                (Some (OpcParseStream.mkOptions None (JS.Number 7) JS.Undefined)) in
  (0 <= 5 < 256 /\ 5 <> 0 /\ 5 <> OpcParseStream.channel this) /\
  OpcParseStream._handleOpcMessage this 5 0 [x01; x02; x03] = [].
Proof.
  cbv zeta. split; [repeat split; (lia || discriminate)|].
  refine (proj2 (proj2 (proj2 (channel_filter _ 0 [x01; x02; x03]))) 5 _ _ _).
  - lia.
  - discriminate.
  - discriminate.
Defined.

Lemma systemId_zero_unconfigurable_witness :
  let options := Some (OpcParseStream.mkOptions None JS.Undefined (JS.Number (2 ^ 32))) in
  JS.double_not (OpcParseStream.opt_systemId (default OpcParseStream.no_options options)) = 0 /\
  OpcParseStream.systemId (OpcParseStream.constructor options) = 0xffff.
Proof.
  cbv zeta. split; [reflexivity|].
  refine (proj1 (systemId_zero_unconfigurable _ _)). reflexivity.
Defined.

(** ** 32-bit arithmetic of the pixel conversions *)

Section Int32.

Lemma toInt32_small (x : Z) : - 2 ^ 31 <= x < 2 ^ 31 -> JS.toInt32 x = x.
Proof.
  intros Hx. unfold JS.toInt32. rewrite Z.mod_small; lia.
Qed.

(** ToInt32 differs from its argument by a multiple of 2^32. *)
Lemma toInt32_wrap (x : Z) : exists k : Z, JS.toInt32 x = x + k * 2 ^ 32.
Proof.
  unfold JS.toInt32. exists (- ((x + 2 ^ 31) / 2 ^ 32)).
  pose proof (Z.div_mod (x + 2 ^ 31) (2 ^ 32) ltac:(lia)). lia.
Qed.

Lemma land_toInt32_byte (z : Z) : Z.land (JS.toInt32 z) 255 = z mod 256.
Proof.
  destruct (toInt32_wrap z) as [j Hj]. rewrite Hj.
  change 255 with (Z.ones 8). rewrite Z.land_ones by lia.
  change (2 ^ 8) with 256.
  replace (j * 2 ^ 32) with (j * 16777216 * 256) by lia.
  apply Z.mod_add. lia.
Qed.

(** [x & 0xff]: the low byte of [x]. *)
Lemma and_byte (x : Z) : JS.and x 0xff = x mod 256.
Proof.
  unfold JS.and. change (JS.toInt32 255) with 255.
  rewrite land_toInt32_byte. apply toInt32_small.
  pose proof (Z.mod_pos_bound x 256 ltac:(lia)). lia.
Qed.

(** [(x >> s) & 0xff] for a shift of at most 16: the byte of [x] from
    bit [s] on. *)
Lemma shr_and_byte (x s : Z) :
  0 <= s <= 16 ->
  JS.and (JS.shr x s) 0xff = (x / 2 ^ s) mod 256.
Proof.
  intros Hs. unfold JS.and, JS.shr.
  assert (Hsh : JS.toUint32 s mod 32 = s).
  { unfold JS.toUint32. rewrite (Z.mod_small s (2 ^ 32)) by lia.
    apply Z.mod_small. lia. }
  rewrite Hsh. change (JS.toInt32 255) with 255.
  destruct (toInt32_wrap x) as [k Hk]. rewrite Hk.
  rewrite Z.shiftr_div_pow2 by lia.
  assert (Hdiv : (x + k * 2 ^ 32) / 2 ^ s = x / 2 ^ s + k * 2 ^ (32 - s)).
  { replace (k * 2 ^ 32) with (k * 2 ^ (32 - s) * 2 ^ s).
    - apply Z.div_add. lia.
    - rewrite <- Z.mul_assoc, <- Z.pow_add_r by lia. f_equal. f_equal. lia. }
  rewrite Hdiv.
  set (y := x / 2 ^ s + k * 2 ^ (32 - s)).
  rewrite land_toInt32_byte.
  rewrite toInt32_small.
  - subst y.
    replace (k * 2 ^ (32 - s)) with (k * 2 ^ (24 - s) * 256).
    + apply Z.mod_add. lia.
    + rewrite <- Z.mul_assoc. f_equal. change 256 with (2 ^ 8).
      rewrite <- Z.pow_add_r by lia. f_equal. lia.
  - pose proof (Z.mod_pos_bound y 256 ltac:(lia)). lia.
Qed.

(** Bits that do not overlap: [|] adds. *)
Lemma lor_shiftl_add (hi lo n : Z) :
  0 <= n -> 0 <= lo < 2 ^ n -> Z.lor (Z.shiftl hi n) lo = hi * 2 ^ n + lo.
Proof.
  intros Hn Hlo.
  assert (Hdisj : Z.land (Z.shiftl hi n) lo = 0).
  { apply Z.bits_inj'. intros m Hm.
    rewrite Z.land_spec, Z.bits_0.
    destruct (Z.lt_ge_cases m n) as [Hlt | Hge].
    - rewrite Z.shiftl_spec_low by assumption. reflexivity.
    - rewrite <- (Z.mod_small lo (2 ^ n)) by assumption.
      rewrite Z.mod_pow2_bits_high by lia. apply andb_false_r. }
  rewrite <- Z.lxor_lor by assumption.
  rewrite <- Z.add_nocarry_lxor by assumption.
  rewrite Z.shiftl_mul_pow2 by assumption. reflexivity.
Qed.

(** [(b0 << 16) | (b1 << 8) | b2] on three bytes. *)
Lemma or_shl_bytes (b0 b1 b2 : Z) :
  0 <= b0 < 256 -> 0 <= b1 < 256 -> 0 <= b2 < 256 ->
  JS.toUint32 (JS.or (JS.or (JS.shl b0 16) (JS.shl b1 8)) b2) =
  b0 * 65536 + b1 * 256 + b2.
Proof.
  intros H0 H1 H2.
  assert (Hshl : forall b n : Z, 0 <= b < 256 -> 0 <= n <= 16 ->
            JS.shl b n = b * 2 ^ n).
  { intros b n Hb Hn. unfold JS.shl, JS.toUint32.
    rewrite (Z.mod_small n (2 ^ 32)) by lia.
    rewrite (Z.mod_small n 32) by lia.
    rewrite (toInt32_small b) by lia.
    rewrite Z.shiftl_mul_pow2 by lia.
    apply toInt32_small.
    assert (0 < 2 ^ n <= 2 ^ 16) by (split; [lia | apply Z.pow_le_mono_r; lia]).
    change (2 ^ 16) with 65536 in *. nia. }
  assert (Hor : forall hi lo n : Z, 0 <= hi < 65536 -> 0 <= n <= 16 ->
            0 <= lo < 2 ^ n -> hi * 2 ^ n < 2 ^ 24 ->
            JS.or (hi * 2 ^ n) lo = hi * 2 ^ n + lo).
  { intros hi lo n Hhi Hn Hlo Hb. unfold JS.or.
    assert (0 < 2 ^ n <= 2 ^ 16) by (split; [lia | apply Z.pow_le_mono_r; lia]).
    change (2 ^ 24) with 16777216 in *. change (2 ^ 16) with 65536 in *.
    rewrite (toInt32_small (hi * 2 ^ n)), (toInt32_small lo) by lia.
    rewrite <- Z.shiftl_mul_pow2 by lia.
    rewrite lor_shiftl_add by lia.
    rewrite Z.shiftl_mul_pow2 by lia.
    apply toInt32_small. lia. }
  rewrite !Hshl by lia.
  rewrite (Hor b0 (b1 * 2 ^ 8) 16) by lia.
  replace (b0 * 2 ^ 16 + b1 * 2 ^ 8) with ((b0 * 256 + b1) * 2 ^ 8) by lia.
  rewrite Hor by lia.
  unfold JS.toUint32. rewrite Z.mod_small by lia. lia.
Qed.

(** The three low bytes of a number make up its low 24 bits. *)
Lemma low24_bytes (x : Z) :
  (x / 2 ^ 16) mod 256 * 65536 + (x / 2 ^ 8) mod 256 * 256 + x mod 256 =
  x mod 2 ^ 24.
Proof.
  change (2 ^ 16) with (256 * 256). change (2 ^ 8) with 256.
  rewrite <- Z.div_div by lia.
  pose proof (Z.div_mod x 256 ltac:(lia)) as E1.
  pose proof (Z.mod_pos_bound x 256 ltac:(lia)) as B1.
  pose proof (Z.div_mod (x / 256) 256 ltac:(lia)) as E2.
  pose proof (Z.mod_pos_bound (x / 256) 256 ltac:(lia)) as B2.
  pose proof (Z.div_mod (x / 256 / 256) 256 ltac:(lia)) as E3.
  pose proof (Z.mod_pos_bound (x / 256 / 256) 256 ltac:(lia)) as B3.
  change (2 ^ 24) with 16777216.
  apply (Z.mod_unique_pos _ _ (x / 256 / 256 / 256)); lia.
Qed.

End Int32.

(** ** Pixel conversions *)

Section Pixels.

Import OpcClientStream OpcParseStream.

Lemma for_loop_S {S : Type} (n : nat) (body : S -> nat -> S) (s : S) :
  for_loop (Datatypes.S n) body s = body (for_loop n body s) n.
Proof.
  unfold for_loop. rewrite seq_S, foldl_app. reflexivity.
Qed.

(** A loop that stores [f i] at every index [i] below [k]. *)
Lemma for_loop_insert {A : Type} (f : nat -> A) (l : list A) (k : nat) :
  (k <= length l)%nat ->
  for_loop k (fun acc i => <[i := f i]> acc) l = map f (seq 0 k) ++ drop k l.
Proof.
  induction k as [|k IH]; intros Hk.
  - reflexivity.
  - rewrite for_loop_S, IH by lia.
    destruct (lookup_lt_is_Some_2 l k ltac:(lia)) as [y Hy].
    rewrite (drop_S l y k Hy).
    rewrite insert_app_r_alt by (rewrite length_map, length_seq; lia).
    rewrite length_map, length_seq, Nat.sub_diag. cbn [insert list_insert].
    rewrite seq_S, map_app. cbn [map Nat.add]. rewrite <- app_assoc. reflexivity.
Qed.

Lemma length_pixel_bytes (data : list Z) :
  length (flat_map pixel_bytes data) = (3 * length data)%nat.
Proof.
  induction data as [|x data IH]; [reflexivity|].
  cbn [flat_map]. rewrite length_app, IH. cbn [pixel_bytes length]. lia.
Qed.

(** The packing loop, written as a list: the three bytes of every
    element, in order. *)
Lemma pack_pixels_flat (data : list Z) :
  pack_pixels data = flat_map pixel_bytes data.
Proof.
  unfold pack_pixels, Buf.alloc.
  replace (Z.to_nat (3 * Z.of_nat (length data))) with (3 * length data)%nat by lia.
  set (body := fun (tmp : Buffer) (i : nat) => _).
  assert (Hinv : forall k : nat, (k <= length data)%nat ->
    for_loop k body (replicate (3 * length data) x00) =
    flat_map pixel_bytes (take k data) ++ replicate (3 * (length data - k)) x00).
  { induction k as [|k IH]; intros Hk.
    - cbn [take flat_map app]. rewrite Nat.sub_0_r. reflexivity.
    - rewrite for_loop_S, IH by lia.
      destruct (lookup_lt_is_Some_2 data k ltac:(lia)) as [x Hx].
      rewrite (take_S_r data k x Hx), flat_map_app. cbn [flat_map].
      rewrite app_nil_r.
      replace (3 * (length data - k))%nat
        with (3 + 3 * (length data - Datatypes.S k))%nat by lia.
      cbn [replicate Nat.add].
      set (X := flat_map pixel_bytes (take k data)).
      assert (HX : length X = (3 * k)%nat).
      { subst X. rewrite length_pixel_bytes, length_take_le by lia. reflexivity. }
      subst body. cbv beta zeta. rewrite Hx. cbn [default].
      unfold Buf.writeUInt8.
      replace (Z.to_nat (3 * Z.of_nat k)) with (length X + 0)%nat by lia.
      replace (Z.to_nat (3 * Z.of_nat k + 1)) with (length X + 1)%nat by lia.
      replace (Z.to_nat (3 * Z.of_nat k + 2)) with (length X + 2)%nat by lia.
      unfold id.
      rewrite (insert_app_r X _ 0), (insert_app_r X _ 1), (insert_app_r X _ 2).
      cbn [insert list_insert].
      rewrite <- app_assoc. reflexivity. }
  rewrite Hinv by lia.
  rewrite take_ge, Nat.sub_diag by lia. apply app_nil_r.
Qed.

(** The byte at place [j] of pixel [i] of a packed array. *)
Lemma lookup_pixel_bytes (data : list Z) :
  forall (i j : nat) (x : Z),
    data !! i = Some x -> (j < 3)%nat ->
    flat_map pixel_bytes data !! (3 * i + j)%nat = pixel_bytes x !! j.
Proof.
  induction data as [|y data IH]; intros i j x Hi Hj; [discriminate|].
  destruct i as [|i].
  - injection Hi as ->. cbn [flat_map Nat.mul Nat.add].
    apply lookup_app_l. cbn [pixel_bytes length]. lia.
  - cbn [flat_map].
    replace (3 * Datatypes.S i + j)%nat with (3 + (3 * i + j))%nat by lia.
    cbn [pixel_bytes app Nat.add]. cbn [lookup list_lookup].
    apply IH; assumption.
Qed.

(** Unpacking reads back the low 24 bits of an element. *)
Lemma pixel_at_packed (data : list Z) (i : nat) (x : Z) :
  data !! i = Some x ->
  pixel_at (flat_map pixel_bytes data) i = x mod 2 ^ 24.
Proof.
  intros Hi. unfold pixel_at, Buf.readUInt8.
  replace (Z.to_nat (3 * Z.of_nat i)) with (3 * i + 0)%nat by lia.
  replace (Z.to_nat (3 * Z.of_nat i + 1)) with (3 * i + 1)%nat by lia.
  replace (Z.to_nat (3 * Z.of_nat i + 2)) with (3 * i + 2)%nat by lia.
  rewrite !(lookup_pixel_bytes data i _ x Hi) by lia.
  cbn [pixel_bytes lookup list_lookup fmap option_fmap option_map default].
  rewrite !to_of_Z.
  rewrite (shr_and_byte x 16), (shr_and_byte x 8) by lia.
  rewrite and_byte, !Z.mod_mod by lia.
  rewrite or_shl_bytes by (apply Z.mod_pos_bound; lia).
  apply low24_bytes.
Qed.

Lemma map_seq_lookup {A B : Type} (f : nat -> B) (g : A -> B) (l : list A) :
  forall s : nat,
    (forall (i : nat) (x : A), l !! i = Some x -> f (s + i)%nat = g x) ->
    map f (seq s (length l)) = map g l.
Proof.
  induction l as [|x l IH]; intros s H; [reflexivity|].
  cbn [length seq map]. f_equal.
  - rewrite <- (H 0%nat x eq_refl). f_equal. lia.
  - apply IH. intros i y Hy. rewrite <- (H (Datatypes.S i) y Hy). f_equal. lia.
Qed.

(** C6, amended.  Packing an array of numbers into 3 bytes per element
    and unpacking the buffer gives back every element reduced to its
    low 24 bits; it gives back the array itself when every element is
    below 2^24, that is when the high byte of each is 0. *)
Theorem pixel_roundtrip (a : list Z) :
  unpack_pixels (pack_pixels a) = map (fun x => x mod 2 ^ 24) a /\
  (Forall (fun x => 0 <= x < 2 ^ 24) a -> unpack_pixels (pack_pixels a) = a).
Proof.
  assert (Hgen : unpack_pixels (pack_pixels a) = map (fun x => x mod 2 ^ 24) a).
  { rewrite pack_pixels_flat. unfold unpack_pixels.
    assert (Hn : Z.to_nat (Buf.len (flat_map pixel_bytes a) / 3) = length a).
    { unfold Buf.len. rewrite length_pixel_bytes.
      replace (Z.of_nat (3 * length a)) with (Z.of_nat (length a) * 3) by lia.
      rewrite Z.div_mul by lia. lia. }
    rewrite Hn, length_replicate.
    rewrite for_loop_insert by (rewrite length_replicate; lia).
    rewrite drop_ge, app_nil_r by (rewrite length_replicate; lia).
    apply map_seq_lookup. intros i x Hi. apply pixel_at_packed, Hi. }
  split; [exact Hgen|].
  intros Hall. rewrite Hgen. clear Hgen.
  induction Hall as [|x a Hx Hall IH]; [reflexivity|].
  cbn [map]. rewrite IH, Z.mod_small by exact Hx. reflexivity.
Qed.

End Pixels.

(** An element with a bit set above bit 23 does not come back. *)
Lemma pixel_roundtrip_loses_high_byte :
  OpcParseStream.unpack_pixels (OpcClientStream.pack_pixels [0x01000000]) = [0] /\
  OpcParseStream.unpack_pixels (OpcClientStream.pack_pixels [0x01000000]) <> [0x01000000].
Proof.
  split; [reflexivity | vm_compute; discriminate].
Qed.

Lemma pixel_roundtrip_witness :
  Forall (fun x => 0 <= x < 2 ^ 24) [0x0000ff; 0x00ff00] /\
  OpcParseStream.unpack_pixels (OpcClientStream.pack_pixels [0x0000ff; 0x00ff00]) =
    [0x0000ff; 0x00ff00].
Proof.
  assert (H : Forall (fun x => 0 <= x < 2 ^ 24) [0x0000ff; 0x00ff00])
    by (repeat constructor; lia).
  split; [exact H|].
  exact (proj2 (pixel_roundtrip [0x0000ff; 0x00ff00]) H).
Defined.

(** ** Several frames in one write *)

Section Frames.

Import OpcParseStream.

Context {E : Type} (handle : t -> Z -> Z -> Buffer -> list E).

Lemma encode_length (f : Frame) : length (encode f) = (4 + length (frame_data f))%nat.
Proof. unfold encode. rewrite createMessage_bytes. reflexivity. Qed.

(** A buffer of complete frames: the loop dispatches every frame, in
    order, and consumes the buffer. *)
Lemma write_loop_wire (h : Z -> Z -> Buffer -> list E) (frames : list Frame) :
  Forall well_formed frames ->
  forall (fuel : nat) (pushback : option Buffer),
    (length (wire frames) <= fuel)%nat ->
    write_loop h fuel pushback (wire frames) =
    Some (pushback_after pushback frames, flat_map (replay h) frames).
Proof.
  induction 1 as [|f frames (Hc & Hk & Hd) Hall IH]; intros fuel pushback Hfuel.
  - apply write_loop_nil.
  - change (wire (f :: frames)) with (encode f ++ wire frames) in *.
    rewrite length_app, encode_length in Hfuel.
    destruct fuel as [|fuel]; [lia|].
    unfold encode. rewrite write_loop_frame by assumption.
    rewrite IH by lia. reflexivity.
Qed.

(** The same for a whole [_write], whose working buffer is the pushback
    followed by the chunk. *)
Lemma write_with_wire (this : t) (chunk : Buffer) (frames : list Frame) :
  Forall well_formed frames ->
  working_buffer this chunk = wire frames ->
  write_with handle this chunk "buffer" =
  Some (mkOutcome (set_pushback this (pushback_after None frames)) Done
          (flat_map (replay (handle this)) frames)).
Proof.
  intros Hall Hbuf. unfold write_with.
  cbn [String.eqb Ascii.eqb Bool.eqb negb]. rewrite Hbuf.
  rewrite write_loop_wire by (assumption || lia). reflexivity.
Qed.

(** After two or more complete frames the pushback holds the bytes of
    the last one. *)
Lemma pushback_after_last (frames : list Frame) :
  forall (pushback : option Buffer) (f g : Frame),
    pushback_after pushback (f :: frames ++ [g]) = Some (encode g).
Proof.
  induction frames as [|f' frames IH]; intros pushback f g.
  - cbn [app pushback_after wire flat_map pushback_past]. rewrite app_nil_r.
    pose proof (encode_length g) as Hlen.
    destruct (encode g); [simpl in Hlen; lia | reflexivity].
  - change (pushback_after pushback (f :: (f' :: frames) ++ [g]))
      with (pushback_after (pushback_past pushback (wire (f' :: frames ++ [g])))
              (f' :: frames ++ [g])).
    apply IH.
Qed.

End Frames.

Section Residual.

Import OpcParseStream.

(** C2 (the code differs).  A decoder without pushback that is written
    one chunk of two or more complete frames dispatches all of them,
    the last one included, and consumes the chunk to its end; yet its
    pushback is not cleared: it holds the bytes of the last frame, which
    has been delivered. *)
Theorem pushback_keeps_delivered_frame (this : t) (f g : Frame) (frames : list Frame) :
  _pushback this = None ->
  Forall well_formed (f :: frames ++ [g]) ->
  write_frames this (wire (f :: frames ++ [g])) "buffer" =
    Some (mkOutcome (set_pushback this (Some (encode g))) Done (f :: frames ++ [g])).
Proof.
  intros Hp Hall. unfold write_frames.
  rewrite (write_with_wire _ this _ (f :: frames ++ [g]) Hall)
    by (unfold working_buffer; rewrite Hp; reflexivity).
  rewrite pushback_after_last. f_equal. f_equal.
  generalize (f :: frames ++ [g]). intros l.
  induction l as [|x l IH]; [reflexivity|].
  cbn [flat_map]. rewrite IH. destruct x; reflexivity.
Qed.

(** C1 (the code differs).  Three frames written to a decoder without
    pushback in one chunk are dispatched once each, in order.  Written
    as two chunks, the first two frames and then the third, the second
    frame is dispatched twice: the pushback left by the first write is
    put before the second chunk. *)
Theorem chunk_split_repeats_frame (this : t) (f g h : Frame) :
  _pushback this = None ->
  well_formed f -> well_formed g -> well_formed h ->
  frames_of_chunks this [encode f ++ encode g ++ encode h] =
    Some (set_pushback this (Some (encode h)), [f; g; h]) /\
  frames_of_chunks this [encode f ++ encode g; encode h] =
    Some (set_pushback this (Some (encode h)), [f; g; g; h]).
Proof.
  intros Hp Hf Hg Hh.
  assert (Hreplay : forall l : list Frame, flat_map (replay record_frame) l = l).
  { induction l as [|x l IH]; [reflexivity|].
    cbn [flat_map]. rewrite IH. destruct x; reflexivity. }
  assert (Hlast : forall (l : list Frame) (a b : Frame),
            pushback_after None (a :: l ++ [b]) = Some (encode b))
    by (intros; apply pushback_after_last).
  pose proof (Hlast [g] f h) as Hfgh. pose proof (Hlast [] f g) as Hfg.
  pose proof (Hlast [] g h) as Hgh. cbn [app] in Hfgh, Hfg, Hgh.
  unfold frames_of_chunks. cbn [write_all]. split.
  - rewrite (write_with_wire _ this _ [f; g; h]).
    + rewrite Hreplay, Hfgh. cbn [after emitted].
      rewrite app_nil_r. reflexivity.
    + repeat first [assumption | constructor].
    + unfold working_buffer. rewrite Hp. cbn [wire flat_map].
      rewrite app_nil_r. reflexivity.
  - rewrite (write_with_wire _ this _ [f; g]).
    + rewrite Hreplay, Hfg. cbn [after emitted].
      rewrite (write_with_wire _ _ _ [g; h]).
      * rewrite Hreplay, Hgh. cbn [after emitted].
        reflexivity.
      * repeat first [assumption | constructor].
      * cbn [working_buffer set_pushback _pushback wire flat_map Buf.concat].
        unfold Buf.concat. rewrite app_nil_r. reflexivity.
    + repeat first [assumption | constructor].
    + unfold working_buffer. rewrite Hp. cbn [wire flat_map].
      rewrite app_nil_r. reflexivity.
Qed.

End Residual.

Lemma pushback_keeps_delivered_frame_witness :
  let this := OpcParseStream.constructor None in
  let f := OpcParseStream.mkFrame 1 0 [x01; x02; x03] in
  let g := OpcParseStream.mkFrame 1 0 [x04; x05; x06] in
  OpcParseStream.write_frames this (OpcParseStream.wire [f; g]) "buffer" =
    Some (OpcParseStream.mkOutcome
            (OpcParseStream.set_pushback this
               (Some [x01; x00; x00; x03; x04; x05; x06]))
            OpcParseStream.Done [f; g]).
Proof.
  cbv zeta.
  refine (pushback_keeps_delivered_frame (OpcParseStream.constructor None)
            (OpcParseStream.mkFrame 1 0 [x01; x02; x03])
            (OpcParseStream.mkFrame 1 0 [x04; x05; x06]) [] _ _).
  - reflexivity.
  - repeat constructor; cbn; try lia; vm_compute; discriminate.
Defined.

Lemma chunk_split_repeats_frame_witness :
  let this := OpcParseStream.constructor None in
  let f := OpcParseStream.mkFrame 1 0 [x01; x02; x03] in
  let g := OpcParseStream.mkFrame 1 0 [x04; x05; x06] in
  let h := OpcParseStream.mkFrame 0 255 [xff; xff; x00; x07; x09] in
  option_map snd
    (OpcParseStream.frames_of_chunks this
       [OpcParseStream.encode f ++ OpcParseStream.encode g ++ OpcParseStream.encode h]) =
    Some [f; g; h] /\
  option_map snd
    (OpcParseStream.frames_of_chunks this
       [OpcParseStream.encode f ++ OpcParseStream.encode g; OpcParseStream.encode h]) =
    Some [f; g; g; h].
Proof.
  cbv zeta.
  destruct (chunk_split_repeats_frame (OpcParseStream.constructor None)
              (OpcParseStream.mkFrame 1 0 [x01; x02; x03])
              (OpcParseStream.mkFrame 1 0 [x04; x05; x06])
              (OpcParseStream.mkFrame 0 255 [xff; xff; x00; x07; x09]))
    as [H1 H2].
  - reflexivity.
  - repeat split; cbn; try lia; vm_compute; discriminate.
  - repeat split; cbn; try lia; vm_compute; discriminate.
  - repeat split; cbn; try lia; vm_compute; discriminate.
  - rewrite H1, H2. split; reflexivity.
Defined.


(** * Further properties of the codec *)

(** ** The pixel conversions on their own *)

Section PixelCodec.

Import OpcClientStream OpcParseStream.

(** The unpacking loop, written as a list. *)
Lemma unpack_pixels_map (data : Buffer) :
  unpack_pixels data = map (pixel_at data) (seq 0 (Z.to_nat (Buf.len data / 3))).
Proof.
  unfold unpack_pixels. rewrite length_replicate.
  rewrite for_loop_insert by (rewrite length_replicate; lia).
  rewrite drop_ge, app_nil_r by (rewrite length_replicate; lia). reflexivity.
Qed.

(** Unpacking what was packed, for any elements. *)
Lemma unpack_pixels_packed (a : list Z) :
  unpack_pixels (pack_pixels a) = map (fun x => x mod 2 ^ 24) a.
Proof.
  rewrite pack_pixels_flat, unpack_pixels_map.
  assert (Hn : Z.to_nat (Buf.len (flat_map pixel_bytes a) / 3) = length a).
  { unfold Buf.len. rewrite length_pixel_bytes.
    replace (Z.of_nat (3 * length a)) with (Z.of_nat (length a) * 3) by lia.
    rewrite Z.div_mul by lia. lia. }
  rewrite Hn. apply map_seq_lookup. intros i x Hi. apply pixel_at_packed, Hi.
Qed.

(** X1.  The buffer [setPixelColors] packs a [Uint32Array] into has three
    bytes per element, and the bytes of element [i] are its bits 23-16,
    15-8 and 7-0, at offsets 3i, 3i+1 and 3i+2. *)
Theorem pack_pixels_layout (a : list Z) :
  Buf.len (pack_pixels a) = 3 * Z.of_nat (length a) /\
  (forall (i : nat) (x : Z),
     a !! i = Some x ->
     Buf.readUInt8 (pack_pixels a) (3 * Z.of_nat i) = (x / 2 ^ 16) mod 256 /\
     Buf.readUInt8 (pack_pixels a) (3 * Z.of_nat i + 1) = (x / 2 ^ 8) mod 256 /\
     Buf.readUInt8 (pack_pixels a) (3 * Z.of_nat i + 2) = x mod 256).
Proof.
  rewrite pack_pixels_flat. split.
  - unfold Buf.len. rewrite length_pixel_bytes. lia.
  - intros i x Hi. unfold Buf.readUInt8.
    replace (Z.to_nat (3 * Z.of_nat i)) with (3 * i + 0)%nat by lia.
    replace (Z.to_nat (3 * Z.of_nat i + 1)) with (3 * i + 1)%nat by lia.
    replace (Z.to_nat (3 * Z.of_nat i + 2)) with (3 * i + 2)%nat by lia.
    rewrite !(lookup_pixel_bytes a i _ x Hi) by lia.
    cbn [pixel_bytes lookup list_lookup fmap option_fmap option_map default].
    rewrite !to_of_Z, (shr_and_byte x 16), (shr_and_byte x 8), (and_byte x) by lia.
    rewrite !Z.mod_mod by lia. repeat split.
Qed.

(** The number three bytes make. *)
Lemma pixel_at_bytes (data : Buffer) (i : nat) :
  pixel_at data i =
  Buf.readUInt8 data (3 * Z.of_nat i) * 65536 +
  Buf.readUInt8 data (3 * Z.of_nat i + 1) * 256 +
  Buf.readUInt8 data (3 * Z.of_nat i + 2).
Proof. unfold pixel_at. apply or_shl_bytes; apply readUInt8_range. Qed.

(** X2.  Unpacking a buffer gives one element per three bytes, the
    integer part of a third of its length, and every element is below
    2^24: the high byte of an unpacked pixel is 0. *)
Theorem unpack_pixels_shape (data : Buffer) :
  Z.of_nat (length (unpack_pixels data)) = Buf.len data / 3 /\
  Forall (fun x => 0 <= x < 2 ^ 24) (unpack_pixels data).
Proof.
  rewrite unpack_pixels_map. split.
  - rewrite length_map, length_seq. pose proof (len_nonneg data).
    rewrite Z2Nat.id; [reflexivity|]. apply Z.div_pos; lia.
  - generalize (seq 0 (Z.to_nat (Buf.len data / 3))). intros l.
    induction l as [|i l IH]; cbn [map]; constructor; [|exact IH].
    rewrite pixel_at_bytes.
    pose proof (readUInt8_range data (3 * Z.of_nat i)).
    pose proof (readUInt8_range data (3 * Z.of_nat i + 1)).
    pose proof (readUInt8_range data (3 * Z.of_nat i + 2)).
    change (2 ^ 24) with 16777216. lia.
Qed.

(** The bytes of a number made of three bytes. *)
Lemma bytes_of_pixel (b0 b1 b2 : byte) :
  pixel_bytes (Buf.to_Z b0 * 65536 + Buf.to_Z b1 * 256 + Buf.to_Z b2) = [b0; b1; b2].
Proof.
  pose proof (to_Z_range b0) as H0. pose proof (to_Z_range b1) as H1.
  pose proof (to_Z_range b2) as H2.
  set (x := Buf.to_Z b0 * 65536 + Buf.to_Z b1 * 256 + Buf.to_Z b2).
  unfold pixel_bytes.
  rewrite (shr_and_byte x 16), (shr_and_byte x 8), (and_byte x) by lia.
  change (2 ^ 16) with 65536. change (2 ^ 8) with 256.
  assert (E0 : (x / 65536) mod 256 = Buf.to_Z b0).
  { replace (x / 65536) with (Buf.to_Z b0).
    - apply Z.mod_small, H0.
    - apply (Z.div_unique_pos x 65536 _ (Buf.to_Z b1 * 256 + Buf.to_Z b2)); subst x; lia. }
  assert (E1 : (x / 256) mod 256 = Buf.to_Z b1).
  { replace (x / 256) with (Buf.to_Z b0 * 256 + Buf.to_Z b1).
    - symmetry. apply (Z.mod_unique_pos _ _ (Buf.to_Z b0)); lia.
    - apply (Z.div_unique_pos x 256 _ (Buf.to_Z b2)); subst x; lia. }
  assert (E2 : x mod 256 = Buf.to_Z b2).
  { symmetry.
    apply (Z.mod_unique_pos _ _ (Buf.to_Z b0 * 256 + Buf.to_Z b1)); subst x; lia. }
  unfold Buf.of_Z. rewrite !Z.mod_mod by lia. rewrite E0, E1, E2.
  fold (Buf.of_Z (Buf.to_Z b0)).
  rewrite <- (Z.mod_small (Buf.to_Z b0) 256) at 1 by exact H0.
  rewrite <- (Z.mod_small (Buf.to_Z b1) 256) at 1 by exact H1.
  rewrite <- (Z.mod_small (Buf.to_Z b2) 256) at 1 by exact H2.
  fold (Buf.of_Z (Buf.to_Z b0)). fold (Buf.of_Z (Buf.to_Z b1)).
  fold (Buf.of_Z (Buf.to_Z b2)).
  rewrite !of_to_Z. reflexivity.
Qed.

(** X3.  Unpacking a buffer and packing the result gives the buffer back
    up to its last whole pixel: the one or two bytes after it are dropped,
    and a buffer whose length is a multiple of 3 comes back unchanged. *)
Theorem pack_unpack_pixels (data : Buffer) :
  pack_pixels (unpack_pixels data) = take (3 * (length data / 3)) data /\
  (Buf.len data mod 3 = 0 -> pack_pixels (unpack_pixels data) = data).
Proof.
  assert (Hn : Z.to_nat (Buf.len data / 3) = (length data / 3)%nat).
  { unfold Buf.len. rewrite <- (Nat2Z.inj_div _ 3). apply Nat2Z.id. }
  assert (Hgen : pack_pixels (unpack_pixels data) = take (3 * (length data / 3)) data).
  { rewrite pack_pixels_flat, unpack_pixels_map, Hn.
    pose proof (Nat.Div0.mul_div_le (length data) 3) as Hle.
    generalize dependent (length data / 3)%nat. intros n _ Hle.
    induction n as [|n IH]; [reflexivity|].
    rewrite seq_S, map_app, flat_map_app, IH by lia.
    cbn [Nat.add map flat_map]. rewrite app_nil_r.
    destruct (lookup_lt_is_Some_2 data (3 * n) ltac:(lia)) as [b0 E0].
    destruct (lookup_lt_is_Some_2 data (S (3 * n)) ltac:(lia)) as [b1 E1].
    destruct (lookup_lt_is_Some_2 data (S (S (3 * n))) ltac:(lia)) as [b2 E2].
    replace (3 * S n)%nat with (S (S (S (3 * n)))) by lia.
    rewrite (take_S_r data _ b2 E2), (take_S_r data _ b1 E1), (take_S_r data _ b0 E0).
    rewrite <- !app_assoc. cbn [app]. f_equal.
    rewrite pixel_at_bytes. unfold Buf.readUInt8.
    replace (Z.to_nat (3 * Z.of_nat n)) with (3 * n)%nat by lia.
    replace (Z.to_nat (3 * Z.of_nat n + 1)) with (S (3 * n)) by lia.
    replace (Z.to_nat (3 * Z.of_nat n + 2)) with (S (S (3 * n))) by lia.
    unfold Buffer in *.
    rewrite E0, E1, E2. cbn [fmap option_fmap option_map default].
    apply bytes_of_pixel. }
  split; [exact Hgen|].
  intros Hmod. rewrite Hgen. apply take_ge.
  unfold Buf.len in Hmod.
  pose proof (Nat.div_mod_eq (length data) 3) as Hdm.
  assert ((length data mod 3)%nat = 0%nat).
  { apply Nat2Z.inj. rewrite Nat2Z.inj_mod. exact Hmod. }
  lia.
Qed.

End PixelCodec.

Lemma pack_pixels_layout_witness :
  [0x0000ff; 0xabcdef] !! 1%nat = Some 0xabcdef /\
  Buf.readUInt8 (OpcClientStream.pack_pixels [0x0000ff; 0xabcdef]) (3 * Z.of_nat 1) =
    (0xabcdef / 2 ^ 16) mod 256.
Proof.
  split; [reflexivity|].
  exact (proj1 (proj2 (pack_pixels_layout [0x0000ff; 0xabcdef]) 1%nat 0xabcdef eq_refl)).
Defined.

Lemma pack_unpack_pixels_witness :
  Buf.len [x01; x02; x03; x04; x05; x06] mod 3 = 0 /\
  OpcClientStream.pack_pixels
    (OpcParseStream.unpack_pixels [x01; x02; x03; x04; x05; x06]) =
  [x01; x02; x03; x04; x05; x06].
Proof.
  split; [reflexivity|].
  exact (proj2 (pack_unpack_pixels [x01; x02; x03; x04; x05; x06]) eq_refl).
Defined.

(** ** From the sender to the receiver *)

Section EndToEnd.

Import OpcParseStream.

(** One encoded frame written to a decoder without pushback: the handler
    is called once, with the frame. *)
Lemma write_one_frame {E : Type} (handle : t -> Z -> Z -> Buffer -> list E)
    (this : t) (c k : Z) (d : Buffer) :
  _pushback this = None ->
  0 <= c < 256 -> 0 <= k < 256 -> Buf.len d <= 65535 ->
  write_with handle this (OpcClientStream.createMessage c k d) "buffer" =
  Some (mkOutcome this Done (handle this c k d)).
Proof.
  intros Hp Hc Hk Hd.
  rewrite (write_with_wire handle this _ [mkFrame c k d]).
  - cbn [pushback_after wire flat_map pushback_past replay
         frame_channel frame_command frame_data].
    rewrite app_nil_r, <- Hp, set_pushback_id. reflexivity.
  - constructor; [|constructor]. unfold well_formed. cbn. lia.
  - unfold working_buffer. rewrite Hp. cbn [wire flat_map].
    rewrite app_nil_r. reflexivity.
Qed.

(** The message [sysex] pushes: a SysEx frame whose payload is the system
    id followed by the data. *)
Lemma sysex_bytes (tx : OpcClientStream.t) (channel systemId : Z) (data : Buffer) :
  OpcClientStream.sysex tx channel systemId data =
  tx ++ [OpcClientStream.createMessage channel OpcClientStream.SYSEX
           (sysex_payload systemId data)].
Proof.
  unfold OpcClientStream.sysex, OpcClientStream.push, sysex_payload.
  do 2 f_equal.
  unfold Buf.copy, Buf.writeUInt16BE, Buf.alloc.
  replace (Z.to_nat (2 + Buf.len data)) with (2 + length data)%nat
    by (unfold Buf.len; lia).
  change (Z.to_nat 0) with 0%nat. change (Z.to_nat (0 + 1)) with 1%nat.
  change (Z.to_nat 2) with 2%nat.
  cbn [Nat.add replicate]. cbn [insert list_insert].
  rewrite !list_inserts_cons.
  rewrite <- (app_nil_r (replicate (length data) x00)).
  rewrite list_inserts_0_r by (rewrite length_replicate; reflexivity).
  rewrite app_nil_r. reflexivity.
Qed.

Lemma sysex_payload_reads (systemId : Z) (data : Buffer) :
  Buf.len (sysex_payload systemId data) = 2 + Buf.len data /\
  Buf.readUInt16BE (sysex_payload systemId data) 0 = systemId mod 2 ^ 16 /\
  Buf.readUInt16BE (sysex_payload systemId data) 2 = Buf.readUInt16BE data 0 /\
  Buf.slice_from (sysex_payload systemId data) 4 = Buf.slice_from data 2.
Proof.
  unfold sysex_payload. repeat split.
  - rewrite !len_cons. lia.
  - rewrite <- length_field. reflexivity.
Qed.

(** X4.  [sysex] appends one message to the queue: a frame of
    6 + data.length bytes with the channel at offset 0, the command 0xff
    at offset 1, the length 2 + data.length at offsets 2-3, the system id
    as a big-endian 16-bit number at offsets 4-5 and the data from offset
    6 on. *)
Theorem sysex_layout (tx : OpcClientStream.t) (channel systemId : Z) (data : Buffer) :
  0 <= channel < 256 -> 0 <= systemId < 65536 -> 2 + Buf.len data <= 65535 ->
  exists msg : Buffer,
    OpcClientStream.sysex tx channel systemId data = tx ++ [msg] /\
    Buf.len msg = 6 + Buf.len data /\
    Buf.readUInt8 msg 0 = channel /\
    Buf.readUInt8 msg 1 = 0xff /\
    Buf.readUInt16BE msg 2 = 2 + Buf.len data /\
    Buf.readUInt16BE msg 4 = systemId /\
    Buf.slice_from msg 6 = data.
Proof.
  intros Hc Hs Hd. eexists. split; [apply sysex_bytes|].
  rewrite createMessage_bytes.
  destruct (sysex_payload_reads systemId data) as (Hlen & Hid & _ & _).
  match goal with
  | |- context [?b0 :: ?b1 :: ?b2 :: ?b3 :: sysex_payload systemId data] =>
      destruct (header_reads b0 b1 b2 b3 (sysex_payload systemId data))
        as (R0 & R1 & R2)
  end.
  rewrite R0, R1, R2, length_field, Hlen.
  rewrite !to_of_Z_small by (assumption || (unfold OpcClientStream.SYSEX; lia)).
  pose proof (len_nonneg data).
  repeat split.
  - rewrite !len_cons, Hlen. lia.
  - apply Z.mod_small. change (2 ^ 16) with 65536. lia.
  - change (Buf.readUInt16BE (sysex_payload systemId data) 0 = systemId).
    rewrite Hid. apply Z.mod_small. change (2 ^ 16) with 65536. lia.
Qed.

(** X5.  A SysEx message sent by [sysex] with the receiver's system id, on
    channel 0 or the receiver's channel, with at least two bytes of data,
    makes the receiver emit one sysex event: its command id is the
    big-endian number in the first two bytes of the sender's data, and its
    data are the bytes after them. *)
Theorem sysex_delivered (rx : t) (tx : OpcClientStream.t)
    (channel' systemId' : Z) (data msg : Buffer) :
  _pushback rx = None ->
  0 <= channel' < 256 -> channel' = 0 \/ channel' = channel rx ->
  0 <= systemId' < 65536 -> systemId' = systemId rx ->
  2 <= Buf.len data -> 2 + Buf.len data <= 65535 ->
  OpcClientStream.sysex tx channel' systemId' data = tx ++ [msg] ->
  _write rx msg "buffer" =
    Some (mkOutcome rx Done
            [Emit_sysex (Buf.readUInt16BE data 0) (Buf.slice_from data 2)]).
Proof.
  intros Hp Hc Hpass Hs Hid Hlo Hhi Hmsg.
  rewrite sysex_bytes in Hmsg. apply app_inv_head in Hmsg. injection Hmsg as <-.
  destruct (sysex_payload_reads systemId' data) as (Hlen & Hrid & Hcmd & Hrest).
  unfold _write.
  rewrite write_one_frame
    by (try assumption; try (unfold OpcClientStream.SYSEX; lia); rewrite Hlen; lia).
  change OpcClientStream.SYSEX with SYSEX. rewrite sysex_frame.
  assert (Hguard : (channel' >? 0) && negb (channel' =? channel rx) = false).
  { destruct Hpass as [-> | ->]; [reflexivity|].
    rewrite Z.eqb_refl. apply andb_false_r. }
  rewrite Hguard, Hlen, Hrid, Hcmd, Hrest.
  rewrite Z.mod_small by (change (2 ^ 16) with 65536; lia).
  destruct (Z.ltb_spec (2 + Buf.len data) 4); [lia|].
  rewrite Hid, Z.eqb_refl. reflexivity.
Qed.


(** What an accepted SetPixelColors frame makes the receiver emit. *)
Lemma setpixelcolors_frame (this : t) (channel' : Z) (data : Buffer) :
  channel' = 0 \/ channel' = channel this ->
  _handleOpcMessage this channel' SETPIXELCOLORS data =
  if String.eqb (dataFormat this) BUFFER
  then [Emit_setpixelcolors (PxBuffer data)]
  else [Emit_setpixelcolors (PxUint32Array (unpack_pixels data))].
Proof.
  intros Hpass. unfold _handleOpcMessage.
  assert (Hguard : (channel' >? 0) && negb (channel' =? channel this) = false).
  { destruct Hpass as [-> | ->]; [reflexivity|].
    rewrite Z.eqb_refl. apply andb_false_r. }
  rewrite Hguard. change (SETPIXELCOLORS =? SETPIXELCOLORS) with true.
  change (SETPIXELCOLORS =? SYSEX) with false. rewrite app_nil_r.
  unfold _handleSetPixelColorsMessage, setPixelColors.
  destruct (String.eqb (dataFormat this) BUFFER); reflexivity.
Qed.

(** X7.  Pixels sent as a [Uint32Array] by [setPixelColors], on channel 0
    or the receiver's channel, reach a receiver whose data format is not
    ['buffer'] as one setpixelcolors event that carries the same number of
    elements, each reduced to its low 24 bits. *)
Theorem pixels_delivered_as_uint32array (rx : t) (tx : OpcClientStream.t)
    (channel' : Z) (a : list Z) (msg : Buffer) :
  _pushback rx = None -> dataFormat rx <> BUFFER ->
  0 <= channel' < 256 -> channel' = 0 \/ channel' = channel rx ->
  3 * Z.of_nat (length a) <= 65535 ->
  OpcClientStream.setPixelColors tx channel' (PxUint32Array a) = tx ++ [msg] ->
  _write rx msg "buffer" =
    Some (mkOutcome rx Done
            [Emit_setpixelcolors (PxUint32Array (map (fun x => x mod 2 ^ 24) a))]).
Proof.
  intros Hp Hfmt Hc Hpass Hlen Hmsg.
  unfold OpcClientStream.setPixelColors, OpcClientStream.push in Hmsg.
  apply app_inv_head in Hmsg. injection Hmsg as <-.
  unfold _write.
  assert (Hl : Buf.len (OpcClientStream.pack_pixels a) = 3 * Z.of_nat (length a)).
  { rewrite pack_pixels_flat. unfold Buf.len. rewrite length_pixel_bytes. lia. }
  rewrite write_one_frame
    by (try assumption; try (unfold OpcClientStream.SETPIXELCOLORS; lia); rewrite Hl; lia).
  change OpcClientStream.SETPIXELCOLORS with SETPIXELCOLORS.
  rewrite setpixelcolors_frame by assumption.
  apply String.eqb_neq in Hfmt. rewrite Hfmt, unpack_pixels_packed. reflexivity.
Qed.

(** X8.  Pixels sent as a buffer by [setPixelColors], on channel 0 or the
    receiver's channel, reach a receiver whose data format is ['buffer']
    as one setpixelcolors event that carries the sender's bytes
    unchanged. *)
Theorem pixels_delivered_as_buffer (rx : t) (tx : OpcClientStream.t)
    (channel' : Z) (b msg : Buffer) :
  _pushback rx = None -> dataFormat rx = BUFFER ->
  0 <= channel' < 256 -> channel' = 0 \/ channel' = channel rx ->
  Buf.len b <= 65535 ->
  OpcClientStream.setPixelColors tx channel' (PxBuffer b) = tx ++ [msg] ->
  _write rx msg "buffer" = Some (mkOutcome rx Done [Emit_setpixelcolors (PxBuffer b)]).
Proof.
  intros Hp Hfmt Hc Hpass Hlen Hmsg.
  unfold OpcClientStream.setPixelColors, OpcClientStream.push in Hmsg.
  apply app_inv_head in Hmsg. injection Hmsg as <-.
  unfold _write.
  rewrite write_one_frame
    by (try assumption; unfold OpcClientStream.SETPIXELCOLORS; lia).
  change OpcClientStream.SETPIXELCOLORS with SETPIXELCOLORS.
  rewrite setpixelcolors_frame by assumption.
  rewrite Hfmt. reflexivity.
Qed.

(** X9.  A frame makes the receiver emit at most one event, and none when
    its command is neither 0x00 nor 0xff. *)
Theorem at_most_one_event (this : t) (channel' command : Z) (data : Buffer) :
  (length (_handleOpcMessage this channel' command data) <= 1)%nat /\
  (command <> SETPIXELCOLORS -> command <> SYSEX ->
   _handleOpcMessage this channel' command data = []).
Proof.
  unfold _handleOpcMessage, _handleSetPixelColorsMessage, _handleSysExMessage,
    setPixelColors, sysex.
  destruct ((channel' >? 0) && negb (channel' =? channel this)).
  { split; [cbn; lia | reflexivity]. }
  destruct (Z.eqb_spec command SETPIXELCOLORS) as [-> | Hn0].
  - change (SETPIXELCOLORS =? SYSEX) with false. split; [|contradiction].
    destruct (String.eqb (dataFormat this) BUFFER); cbn; lia.
  - destruct (Z.eqb_spec command SYSEX) as [-> | Hn1].
    + split; [|contradiction].
      destruct (Buf.len data <? 4); [cbn; lia|].
      destruct (negb (Buf.readUInt16BE data 0 =? systemId this)); cbn; lia.
    + split; [cbn; lia | reflexivity].
Qed.

End EndToEnd.

(** ** Frames that arrive in pieces *)

Section Pieces.

Import OpcParseStream.

Lemma working_buffer_pending (this : t) (acc chunk : Buffer) :
  working_buffer (with_pending this acc) chunk = acc ++ chunk.
Proof. destruct acc; reflexivity. Qed.

(** The loop stops at once at a buffer that does not start with a
    complete frame, and keeps all of it. *)
Lemma write_loop_incomplete {E : Type} (h : Z -> Z -> Buffer -> list E)
    (fuel : nat) (pushback : option Buffer) (b : Buffer) :
  b <> [] -> incomplete b ->
  write_loop h (S fuel) pushback b = Some (Some b, []).
Proof.
  intros Hne Hinc. rewrite write_loop_S.
  assert (Hpos : 0 < Buf.len b).
  { destruct b as [|x b']; [contradiction|].
    rewrite len_cons. pose proof (len_nonneg b'). lia. }
  cmp_is true.
  destruct (Z.ltb_spec (Buf.len b) 4); [reflexivity|].
  cbv zeta.
  destruct (Z.ltb_spec (Buf.len b) (4 + Buf.readUInt16BE b 2)); [reflexivity|].
  destruct Hinc; lia.
Qed.

(** The bytes of a frame short of its end do not start with a complete
    frame. *)
Lemma prefix_incomplete (f : Frame) (pre post : Buffer) :
  well_formed f -> encode f = pre ++ post -> post <> [] -> incomplete pre.
Proof.
  intros (Hc & Hk & Hd) Heq Hpost. unfold encode in Heq.
  rewrite createMessage_bytes in Heq. unfold incomplete.
  destruct pre as [|b0 [|b1 [|b2 [|b3 pre']]]];
    try (left; unfold Buf.len; cbn [length]; lia).
  right. cbn [app] in Heq. injection Heq as H0 H1 H2 H3 Hdata.
  subst b0 b1 b2 b3.
  destruct (header_reads (Buf.of_Z (frame_channel f)) (Buf.of_Z (frame_command f))
              (Buf.of_Z (JS.ushr (Buf.len (frame_data f)) 8))
              (Buf.of_Z (Buf.len (frame_data f))) pre') as (_ & _ & R2).
  rewrite R2, length_field.
  pose proof (len_nonneg (frame_data f)).
  rewrite Z.mod_small by (change (2 ^ 16) with 65536; lia).
  rewrite Hdata, len_app, !len_cons.
  assert (0 < Buf.len post).
  { destruct post as [|x post']; [contradiction|].
    rewrite len_cons. pose proof (len_nonneg post'). lia. }
  lia.
Qed.

(** X10.  A decoder without pushback that is written the first bytes of
    an encoded frame, at least one and not all of them, dispatches
    nothing, emits nothing, and keeps exactly these bytes as its pushback,
    the header bytes included. *)
Theorem incomplete_frame_kept (this : t) (f : Frame) (pre post : Buffer) :
  _pushback this = None -> well_formed f ->
  encode f = pre ++ post -> pre <> [] -> post <> [] ->
  write_frames this pre "buffer" =
    Some (mkOutcome (set_pushback this (Some pre)) Done []) /\
  _write this pre "buffer" =
    Some (mkOutcome (set_pushback this (Some pre)) Done []).
Proof.
  intros Hp Hwf Heq Hpre Hpost.
  pose proof (prefix_incomplete f pre post Hwf Heq Hpost) as Hinc.
  unfold _write, write_frames, write_with, working_buffer. rewrite Hp.
  cbn [String.eqb Ascii.eqb Bool.eqb negb].
  destruct pre as [|x pre']; [contradiction|]. cbn [length].
  rewrite !write_loop_incomplete by assumption. split; reflexivity.
Qed.

Context {E : Type} (handle : t -> Z -> Z -> Buffer -> list E).
Hypothesis handle_config : forall (this : t) (p : option Buffer),
  handle (set_pushback this p) = handle this.

(** Empty chunks change nothing in a decoder without pushback. *)
Lemma write_all_empty_chunks (chunks : list Buffer) :
  forall this : t,
    _pushback this = None -> concat chunks = [] ->
    write_all handle this chunks = Some (this, []).
Proof.
  induction chunks as [|chunk chunks IH]; intros this Hp Hnil; [reflexivity|].
  cbn [concat] in Hnil. apply app_eq_nil in Hnil as [-> Hnil].
  assert (Hw : write_with handle this [] "buffer" = Some (mkOutcome this Done [])).
  { destruct this as [p df c sid]. cbn [_pushback] in Hp. subst p. reflexivity. }
  cbn [write_all]. rewrite Hw. cbn [after emitted app].
  rewrite IH by assumption. reflexivity.
Qed.

(** One frame, cut into chunks at any places: once [acc] has arrived, the
    chunks that bring the rest make the handler run once, on the frame,
    and leave no pushback. *)
Lemma write_all_one_frame (this : t) (f : Frame) (chunks : list Buffer) :
  well_formed f ->
  forall acc : Buffer,
    (length acc < length (encode f))%nat ->
    acc ++ concat chunks = encode f ->
    write_all handle (with_pending this acc) chunks =
    Some (set_pushback this None, replay (handle this) f).
Proof.
  intros Hwf. induction chunks as [|chunk chunks IH]; intros acc Hlt Heq.
  { cbn [concat] in Heq. rewrite app_nil_r in Heq. subst acc. lia. }
  cbn [concat] in Heq. rewrite app_assoc in Heq. cbn [write_all].
  destruct (Nat.lt_ge_cases (length (acc ++ chunk)) (length (encode f))) as [Hshort | Hfull].
  - assert (Hpost : concat chunks <> []).
    { intros Hnil. rewrite Hnil, app_nil_r in Heq. rewrite Heq in Hshort. lia. }
    assert (Hw : write_with handle (with_pending this acc) chunk "buffer" =
                 Some (mkOutcome (with_pending this (acc ++ chunk)) Done [])).
    { unfold write_with. rewrite working_buffer_pending.
      cbn [String.eqb Ascii.eqb Bool.eqb negb].
      destruct (acc ++ chunk) as [|x l] eqn:Hac.
      - reflexivity.
      - cbn [length].
        rewrite write_loop_incomplete;
          [reflexivity | discriminate
          | apply (prefix_incomplete f _ (concat chunks)); auto]. }
    rewrite Hw. cbn [after emitted app]. rewrite IH by assumption. reflexivity.
  - assert (Hnil : concat chunks = []).
    { apply (f_equal length) in Heq. rewrite length_app in Heq.
      destruct (concat chunks); [reflexivity | cbn [length] in Heq; lia]. }
    rewrite Hnil, app_nil_r in Heq.
    rewrite (write_with_wire handle _ _ [f]).
    + cbn [after emitted pushback_after wire flat_map pushback_past].
      rewrite write_all_empty_chunks by (reflexivity || assumption).
      unfold with_pending. rewrite handle_config, !app_nil_r. reflexivity.
    + constructor; [assumption | constructor].
    + rewrite working_buffer_pending, Heq. cbn [wire flat_map].
      rewrite app_nil_r. reflexivity.
Qed.

Lemma write_all_app (chunks1 chunks2 : list Buffer) :
  forall this : t,
    write_all handle this (chunks1 ++ chunks2) =
    match write_all handle this chunks1 with
    | Some (this1, outs1) =>
        match write_all handle this1 chunks2 with
        | Some (this2, outs2) => Some (this2, outs1 ++ outs2)
        | None => None
        end
    | None => None
    end.
Proof.
  induction chunks1 as [|chunk chunks1 IH]; intros this.
  - cbn [app write_all]. destruct (write_all handle this chunks2) as [[? ?]|]; reflexivity.
  - cbn [app write_all].
    destruct (write_with handle this chunk "buffer") as [o|]; [|reflexivity].
    rewrite IH.
    destruct (write_all handle (after o) chunks1) as [[this1 outs1]|]; [|reflexivity].
    destruct (write_all handle this1 chunks2) as [[this2 outs2]|]; [|reflexivity].
    rewrite app_assoc. reflexivity.
Qed.

(** Frames written one after the other, each cut into chunks of its own:
    the handler runs once on every frame, in order. *)
Lemma write_all_framed (parts : list (Frame * list Buffer)) (this : t) :
  _pushback this = None ->
  Forall (fun p => well_formed (fst p) /\ concat (snd p) = encode (fst p)) parts ->
  write_all handle this (flat_map snd parts) =
  Some (this, flat_map (fun p => replay (handle this) (fst p)) parts).
Proof.
  intros Hp Hall. induction Hall as [|[f cs] parts [Hwf Hcs] Hall IH]; [reflexivity|].
  cbn [flat_map fst snd] in *. rewrite write_all_app.
  assert (Hthis : this = with_pending this []).
  { unfold with_pending. rewrite <- Hp. symmetry. apply set_pushback_id. }
  rewrite Hthis at 1.
  rewrite (write_all_one_frame this f cs Hwf []);
    [| rewrite encode_length; cbn [length]; lia | exact Hcs].
  rewrite <- Hp, set_pushback_id, IH. reflexivity.
Qed.

End Pieces.

Section Chunking.

Import OpcParseStream.

(** X11.  A sequence of well-formed frames written to a decoder without
    pushback, every frame cut into any number of chunks at any byte
    offsets (empty chunks included) but no chunk holding bytes of two
    frames, is dispatched frame by frame, once each and in order; the
    events are those of the frames, and no pushback is left. *)
Theorem frames_in_own_chunks (this : t) (parts : list (Frame * list Buffer)) :
  _pushback this = None ->
  Forall (fun p => well_formed (fst p) /\ concat (snd p) = encode (fst p)) parts ->
  frames_of_chunks this (flat_map snd parts) = Some (this, map fst parts) /\
  write_all _handleOpcMessage this (flat_map snd parts) =
    Some (this, flat_map (fun p => replay (_handleOpcMessage this) (fst p)) parts).
Proof.
  intros Hp Hall. split.
  - unfold frames_of_chunks.
    rewrite (write_all_framed (fun _ => record_frame)) by (auto || reflexivity).
    do 2 f_equal. clear. induction parts as [|[[c k d] cs] parts IH]; [reflexivity|].
    cbn [flat_map map fst]. rewrite IH. reflexivity.
  - apply write_all_framed; auto.
Qed.

End Chunking.

Lemma incomplete_frame_kept_witness :
  let f := OpcParseStream.mkFrame 1 0 [x00; x00; xff; x00; xff; x00] in
  OpcParseStream.encode f = [x01; x00; x00] ++ [x06; x00; x00; xff; x00; xff; x00] /\
  OpcParseStream._write (OpcParseStream.constructor None) [x01; x00; x00] "buffer" =
    Some (OpcParseStream.mkOutcome
            (OpcParseStream.set_pushback (OpcParseStream.constructor None)
               (Some [x01; x00; x00]))
            OpcParseStream.Done []).
Proof.
  cbv zeta. split; [reflexivity|].
  refine (proj2 (incomplete_frame_kept (OpcParseStream.constructor None)
                   (OpcParseStream.mkFrame 1 0 [x00; x00; xff; x00; xff; x00])
                   [x01; x00; x00] [x06; x00; x00; xff; x00; xff; x00] _ _ _ _ _)).
  - reflexivity.
  - repeat split; cbn; try lia; vm_compute; discriminate.
  - reflexivity.
  - discriminate.
  - discriminate.
Defined.

Lemma frames_in_own_chunks_witness :
  let f := OpcParseStream.mkFrame 1 0 [x00; x00; xff; x00; xff; x00] in
  let g := OpcParseStream.mkFrame 0 255 [xff; xff; x00; x07; x09] in
  let parts := [(f, [[x01; x00; x00]; []; [x06; x00; x00; xff; x00; xff; x00]]);
                (g, [[x00; xff; x00; x05; xff; xff; x00; x07; x09]])] in
  OpcParseStream.frames_of_chunks (OpcParseStream.constructor None) (flat_map snd parts) =
    Some (OpcParseStream.constructor None, [f; g]).
Proof.
  cbv zeta.
  refine (proj1 (frames_in_own_chunks (OpcParseStream.constructor None)
    [(OpcParseStream.mkFrame 1 0 [x00; x00; xff; x00; xff; x00],
      [[x01; x00; x00]; []; [x06; x00; x00; xff; x00; xff; x00]]);
     (OpcParseStream.mkFrame 0 255 [xff; xff; x00; x07; x09],
      [[x00; xff; x00; x05; xff; xff; x00; x07; x09]])] _ _)).
  - reflexivity.
  - repeat constructor; cbn; try lia; vm_compute; discriminate.
Defined.

(** ** Any bytes at all *)

Section AnyInput.

Import OpcParseStream.

Lemma of_Z_mod (v : Z) : Buf.of_Z (v mod 256) = Buf.of_Z v.
Proof. unfold Buf.of_Z. rewrite Z.mod_mod by lia. reflexivity. Qed.

(** Four header bytes and at least as many bytes as they announce are
    the encoding of a frame, followed by the bytes after it. *)
Lemma frame_reencode (b0 b1 b2 b3 : byte) (tl : Buffer) :
  Buf.to_Z b2 * 256 + Buf.to_Z b3 <= Buf.len tl ->
  exists (f : Frame) (tail : Buffer),
    well_formed f /\ b0 :: b1 :: b2 :: b3 :: tl = encode f ++ tail.
Proof.
  intros Hlen.
  pose proof (to_Z_range b0) as H0. pose proof (to_Z_range b1) as H1.
  pose proof (to_Z_range b2) as H2. pose proof (to_Z_range b3) as H3.
  set (n := Buf.to_Z b2 * 256 + Buf.to_Z b3) in *.
  assert (Hd : Buf.len (take (Z.to_nat n) tl) = n).
  { unfold Buf.len in *. rewrite length_take_le by lia. lia. }
  exists (mkFrame (Buf.to_Z b0) (Buf.to_Z b1) (take (Z.to_nat n) tl)),
         (drop (Z.to_nat n) tl).
  split.
  - unfold well_formed. cbn [frame_channel frame_command frame_data].
    rewrite Hd. lia.
  - unfold encode. cbn [frame_channel frame_command frame_data].
    rewrite createMessage_bytes, Hd, !of_to_Z.
    assert (E2 : Buf.of_Z (JS.ushr n 8) = b2).
    { unfold JS.ushr, JS.toUint32. change (8 mod 2 ^ 32 mod 32) with 8.
      rewrite (Z.mod_small n (2 ^ 32)) by lia.
      rewrite Z.shiftr_div_pow2 by lia. change (2 ^ 8) with 256.
      replace (n / 256) with (Buf.to_Z b2); [apply of_to_Z|].
      apply (Z.div_unique_pos n 256 _ (Buf.to_Z b3)); subst n; lia. }
    assert (E3 : Buf.of_Z n = b3).
    { rewrite <- of_Z_mod.
      replace (n mod 256) with (Buf.to_Z b3); [apply of_to_Z|].
      apply (Z.mod_unique_pos n 256 (Buf.to_Z b2)); subst n; lia. }
    rewrite E2, E3. cbn [app]. rewrite take_drop. reflexivity.
Qed.

(** A buffer is empty, or does not start with a complete frame, or starts
    with the encoding of a well-formed frame. *)
Lemma buffer_cases (buffer : Buffer) :
  buffer = [] \/
  (buffer <> [] /\ incomplete buffer) \/
  (exists (f : Frame) (tail : Buffer), well_formed f /\ buffer = encode f ++ tail).
Proof.
  destruct buffer as [|b0 [|b1 [|b2 [|b3 tl]]]];
    [left; reflexivity | | | |];
    try (right; left; split; [discriminate | left; unfold Buf.len; cbn [length]; lia]).
  destruct (Z.lt_ge_cases (Buf.len tl) (Buf.to_Z b2 * 256 + Buf.to_Z b3)) as [Hlt | Hge].
  - right. left. split; [discriminate|]. right.
    destruct (header_reads b0 b1 b2 b3 tl) as (_ & _ & R2).
    rewrite R2, !len_cons. lia.
  - right. right. apply frame_reencode, Hge.
Qed.

(** What a run of the loop leaves: the frames it dispatched are
    well-formed and their encodings, in order, are the front of the
    buffer; what follows is nothing, or an incomplete frame that is the
    pushback. *)
Lemma write_loop_account (fuel : nat) :
  forall (p0 : option Buffer) (buffer : Buffer) (p : option Buffer) (frames : list Frame),
    write_loop record_frame fuel p0 buffer = Some (p, frames) ->
    Forall well_formed frames /\
    exists rest : Buffer,
      buffer = wire frames ++ rest /\
      (rest <> [] -> incomplete rest /\ p = Some rest) /\
      (rest = [] -> p = pushback_after p0 frames).
Proof.
  induction fuel as [|fuel IH]; intros p0 buffer p frames Hrun.
  - destruct buffer as [|x l]; [|discriminate].
    injection Hrun as <- <-. split; [constructor|]. exists [].
    split; [reflexivity|]. split; [intros H; contradiction | intros _; reflexivity].
  - destruct (buffer_cases buffer) as [-> | [[Hne Hinc] | (f & tail & Hwf & ->)]].
    + injection Hrun as <- <-. split; [constructor|]. exists [].
      split; [reflexivity|]. split; [intros H; contradiction | intros _; reflexivity].
    + rewrite write_loop_incomplete in Hrun by assumption.
      injection Hrun as <- <-. split; [constructor|]. exists buffer.
      split; [reflexivity|].
      split; [intros _; split; [assumption | reflexivity] | intros H; contradiction].
    + destruct Hwf as (Hc & Hk & Hd). unfold encode in Hrun.
      rewrite write_loop_frame in Hrun by assumption.
      destruct (write_loop record_frame fuel (pushback_past p0 tail) tail)
        as [[p' outs]|] eqn:Hrec; [|discriminate].
      injection Hrun as <- <-.
      apply IH in Hrec as (Hall & rest & Htail & Hrest & Hnil).
      destruct f as [c k d]. cbn [frame_channel frame_command frame_data] in *.
      unfold record_frame. cbn [app]. split.
      * constructor; [unfold well_formed; cbn; lia | exact Hall].
      * exists rest. cbn [wire flat_map]. rewrite <- app_assoc.
        split; [f_equal; exact Htail|]. split; [exact Hrest|].
        intros ->. rewrite app_nil_r in Htail. subst tail.
        cbn [pushback_after]. apply Hnil. reflexivity.
Qed.

(** X12.  A write of any bytes calls back without error.  The frames it
    dispatches are well-formed and their encodings, in order, are exactly
    the front of the working buffer (the pushback, then the chunk): no
    byte is skipped or changed.  Bytes that follow them do not start with
    a complete frame, and they are the pushback afterwards. *)
Theorem write_accounts_for_input (this : t) (chunk : Buffer) :
  exists (o : Outcome Frame) (rest : Buffer),
    write_frames this chunk "buffer" = Some o /\
    callback o = Done /\
    Forall well_formed (emitted o) /\
    working_buffer this chunk = wire (emitted o) ++ rest /\
    (rest <> [] -> incomplete rest /\ _pushback (after o) = Some rest).
Proof.
  unfold write_frames, write_with. cbn [String.eqb Ascii.eqb Bool.eqb negb].
  destruct (write_loop_total record_frame (length (working_buffer this chunk))
              None (working_buffer this chunk)) as [[p frames] Hrun]; [lia|].
  rewrite Hrun.
  apply write_loop_account in Hrun as (Hall & rest & Hbuf & Hrest & _).
  eexists. exists rest. split; [reflexivity|].
  cbn [callback emitted after]. repeat split; try assumption.
  - apply Hrest. assumption.
  - cbn [set_pushback _pushback]. apply Hrest. assumption.
Qed.

(** The pushback after a buffer of complete frames: what was there
    before, for at most one frame, and the last frame for more. *)
Lemma pushback_after_cases (p0 : option Buffer) (frames : list Frame) :
  pushback_after p0 frames = p0 \/
  exists (g : Frame) (front : list Frame),
    frames = front ++ [g] /\ pushback_after p0 frames = Some (encode g).
Proof.
  destruct frames as [|f frames]; [left; reflexivity|].
  destruct frames as [|g frames _] using rev_ind; [left; reflexivity|].
  right. exists g, (f :: frames). split; [reflexivity|].
  apply pushback_after_last.
Qed.

(** X13.  After a write the pushback, when there is one, is never empty
    and never longer than 65539 bytes: a header and the longest payload
    a header can announce. *)
Theorem pushback_bounded (this : t) (chunk : Buffer) (o : Outcome Event) (p : Buffer) :
  _write this chunk "buffer" = Some o ->
  _pushback (after o) = Some p ->
  0 < Buf.len p <= 65539.
Proof.
  rewrite write_events_of_frames.
  unfold write_frames, write_with. cbn [String.eqb Ascii.eqb Bool.eqb negb].
  destruct (write_loop record_frame (length (working_buffer this chunk)) None
              (working_buffer this chunk)) as [[p' frames]|] eqn:Hrun; [|discriminate].
  intros Ho Hp. injection Ho as <-. cbn [after set_pushback _pushback] in Hp. subst p'.
  apply write_loop_account in Hrun as (Hall & rest & Hbuf & Hrest & Hnil).
  destruct rest as [|x rest'].
  - specialize (Hnil eq_refl).
    destruct (pushback_after_cases None frames) as [Hsame | (g & front & -> & Hlast)].
    + rewrite Hsame in Hnil. discriminate.
    + rewrite Hlast in Hnil. injection Hnil as ->.
      apply Forall_app in Hall as [_ Hg]. apply Forall_cons in Hg as [(_ & _ & Hd) _].
      unfold Buf.len in *. rewrite encode_length. lia.
  - destruct (Hrest ltac:(discriminate)) as [Hinc Hsome].
    injection Hsome as ->.
    pose proof (readUInt16BE_range (x :: rest') 2) as Hr.
    unfold incomplete in Hinc. rewrite len_cons in *. pose proof (len_nonneg rest').
    destruct Hinc; lia.
Qed.

End AnyInput.

Lemma pushback_bounded_witness :
  0 < Buf.len [x01; x00; x00] <= 65539.
Proof.
  refine (pushback_bounded (OpcParseStream.constructor None) [x01; x00; x00]
            (OpcParseStream.mkOutcome
               (OpcParseStream.set_pushback (OpcParseStream.constructor None)
                  (Some [x01; x00; x00]))
               OpcParseStream.Done []) [x01; x00; x00] _ _).
  - reflexivity.
  - reflexivity.
Defined.

Lemma sysex_layout_witness :
  (0 <= 1 < 256 /\ 0 <= 0xffff < 65536 /\ 2 + Buf.len [x00; x07; x09] <= 65535) /\
  exists msg : Buffer,
    OpcClientStream.sysex [] 1 0xffff [x00; x07; x09] = [] ++ [msg] /\
    Buf.len msg = 6 + Buf.len [x00; x07; x09] /\
    Buf.readUInt8 msg 0 = 1 /\
    Buf.readUInt8 msg 1 = 0xff /\
    Buf.readUInt16BE msg 2 = 2 + Buf.len [x00; x07; x09] /\
    Buf.readUInt16BE msg 4 = 0xffff /\
    Buf.slice_from msg 6 = [x00; x07; x09].
Proof.
  assert (H : 2 + Buf.len [x00; x07; x09] <= 65535) by (vm_compute; discriminate).
  split; [repeat split; (lia || exact H)|].
  apply (sysex_layout [] 1 0xffff [x00; x07; x09]); (lia || exact H).
Defined.

Lemma sysex_delivered_witness :
  OpcParseStream._write (OpcParseStream.constructor None)
    [x00; xff; x00; x05; xff; xff; x00; x07; x09] "buffer" =
  Some (OpcParseStream.mkOutcome (OpcParseStream.constructor None) OpcParseStream.Done
          [OpcParseStream.Emit_sysex (Buf.readUInt16BE [x00; x07; x09] 0)
             (Buf.slice_from [x00; x07; x09] 2)]).
Proof.
  refine (sysex_delivered (OpcParseStream.constructor None) [] 0 0xffff
            [x00; x07; x09] _ _ _ _ _ _ _ _ _).
  - reflexivity.
  - lia.
  - left. reflexivity.
  - lia.
  - reflexivity.
  - vm_compute. discriminate.
  - vm_compute. discriminate.
  - reflexivity.
Defined.


Lemma pixels_delivered_as_uint32array_witness :
  let rx := OpcParseStream.constructor
              (Some (OpcParseStream.mkOptions (Some OpcParseStream.UINT32_ARRAY)
                       (JS.Number 1) JS.Undefined)) in
  OpcParseStream._write rx [x01; x00; x00; x06; x00; x00; xff; x01; xff; x00] "buffer" =
  Some (OpcParseStream.mkOutcome rx OpcParseStream.Done
          [OpcParseStream.Emit_setpixelcolors
             (PxUint32Array (map (fun x => x mod 2 ^ 24) [0x0000ff; 0xff01ff00]))]).
Proof.
  cbv zeta.
  refine (pixels_delivered_as_uint32array _ [] 1 [0x0000ff; 0xff01ff00] _ _ _ _ _ _ _).
  - reflexivity.
  - discriminate.
  - lia.
  - right. reflexivity.
  - vm_compute. discriminate.
  - reflexivity.
Defined.

Lemma pixels_delivered_as_buffer_witness :
  OpcParseStream._write (OpcParseStream.constructor None)
    [x00; x00; x00; x04; x0a; x0b; x0c; x0d] "buffer" =
  Some (OpcParseStream.mkOutcome (OpcParseStream.constructor None) OpcParseStream.Done
          [OpcParseStream.Emit_setpixelcolors (PxBuffer [x0a; x0b; x0c; x0d])]).
Proof.
  refine (pixels_delivered_as_buffer (OpcParseStream.constructor None) [] 0
            [x0a; x0b; x0c; x0d] _ _ _ _ _ _ _).
  - reflexivity.
  - reflexivity.
  - lia.
  - left. reflexivity.
  - vm_compute. discriminate.
  - reflexivity.
Defined.

Lemma at_most_one_event_witness :
  (1 <> OpcParseStream.SETPIXELCOLORS /\ 1 <> OpcParseStream.SYSEX) /\
  OpcParseStream._handleOpcMessage (OpcParseStream.constructor None) 0 1
    [x01; x02; x03] = [].
Proof.
  split; [split; discriminate|].
  apply (proj2 (at_most_one_event (OpcParseStream.constructor None) 0 1 [x01; x02; x03]));
    discriminate.
Defined.
